(** * thudl.py: share-link walker and downloader

    A shallow embedding of [src/thudl.py] (THU-Cloud-Downloader-CLI) and the
    properties its specification states about it.

    Conventions of the embedding.
    - A Python [str] is a [string]: a sequence of 8-bit characters, compared
      by character code as Python compares code points.
    - The platform is POSIX: [os.path] is [posixpath], [os.path.normcase]
      is the identity.
    - The network, the local file system and the operator are an
      environment ([remote]) of oracles that see the history of the run;
      the program is a state-and-exception computation over a [world]
      (event trace, files written, progress counter). *)

From Stdlib Require Import ZArith Lia Bool Ascii DecimalString.
From stdpp Require Import base list strings gmap sorting.

Local Open Scope Z_scope.

(** ** Python string operations *)

Module Py.

(** The double quote character, which a literal cannot hold. *)
Definition dq : string := String (Ascii.ascii_of_nat 34) EmptyString.

(** The newline character. *)
Definition nl : ascii := Ascii.ascii_of_nat 10.

(** [s.startswith(p)] *)
Definition startswith (s p : string) : bool := String.prefix p s.

(** [s[n:]] *)
Fixpoint drop_str (n : nat) (s : string) : string :=
  match n, s with
  | O, _ => s
  | S _, EmptyString => EmptyString
  | S n', String _ s' => drop_str n' s'
  end.

(** [s[:n]] *)
Fixpoint take_str (n : nat) (s : string) : string :=
  match n, s with
  | O, _ => EmptyString
  | S _, EmptyString => EmptyString
  | S n', String c s' => String c (take_str n' s')
  end.

(** [s.replace(c, '')] for a one-character [c] *)
Fixpoint remove_char (c : ascii) (s : string) : string :=
  match s with
  | EmptyString => EmptyString
  | String d s' =>
      if Ascii.eqb d c then remove_char c s' else String d (remove_char c s')
  end.

(** [p in s] *)
Fixpoint contains (p s : string) : bool :=
  String.prefix p s ||
  match s with
  | EmptyString => false
  | String _ s' => contains p s'
  end.

(** [c in s] for a one-character [c] *)
Fixpoint has_char (c : ascii) (s : string) : bool :=
  match s with
  | EmptyString => false
  | String d s' => Ascii.eqb d c || has_char c s'
  end.

(** [s.endswith(c)] for a one-character [c] *)
Fixpoint endswith_char (c : ascii) (s : string) : bool :=
  match s with
  | EmptyString => false
  | String d EmptyString => Ascii.eqb d c
  | String _ s' => endswith_char c s'
  end.

(** [s.rstrip(c)] for a one-character [c] *)
Fixpoint rstrip_char (c : ascii) (s : string) : string :=
  match s with
  | EmptyString => EmptyString
  | String d s' =>
      match rstrip_char c s' with
      | EmptyString => if Ascii.eqb d c then EmptyString else String d EmptyString
      | r => String d r
      end
  end.

(** [s == c * len(s)] for a one-character [c] *)
Fixpoint all_char (c : ascii) (s : string) : bool :=
  match s with
  | EmptyString => true
  | String d s' => Ascii.eqb d c && all_char c s'
  end.

(** [s[:s.rfind(c) + 1]]: up to and including the last [c] *)
Fixpoint upto_last (c : ascii) (s : string) : string :=
  match s with
  | EmptyString => EmptyString
  | String d s' =>
      if has_char c s' then String d (upto_last c s')
      else if Ascii.eqb d c then String d EmptyString
      else EmptyString
  end.

(** [posixpath.join(a, b)] *)
Definition path_join (a b : string) : string :=
  if startswith b "/" then b
  else if String.eqb a "" || endswith_char "/" a then a +:+ b
  else a +:+ "/" +:+ b.

(** [posixpath.dirname(p)] *)
Definition path_dirname (p : string) : string :=
  let head := upto_last "/" p in
  if negb (String.eqb head "") && negb (all_char "/" head)
  then rstrip_char "/" head
  else head.

End Py.

(** ** [urllib.parse.quote] *)

Module Urllib.

(** The characters [quote] never escapes: letters, digits and [_.-~]. *)
Definition always_safe (c : ascii) : bool :=
  let n := Ascii.nat_of_ascii c in
  ((65 <=? n) && (n <=? 90) || (97 <=? n) && (n <=? 122) ||
   (48 <=? n) && (n <=? 57) ||
   Ascii.eqb c "_" || Ascii.eqb c "." || Ascii.eqb c "-" || Ascii.eqb c "~")%nat.

Definition hex_digit (n : nat) : ascii :=
  Ascii.ascii_of_nat (if (n <? 10)%nat then 48 + n else 55 + n)%nat.

(** One byte of [quote(s)] with the default [safe='/']. *)
Definition quote_char (c : ascii) : string :=
  if always_safe c || Ascii.eqb c "/" then String c EmptyString
  else
    let n := Ascii.nat_of_ascii c in
    String "%" (String (hex_digit (n / 16)%nat)
               (String (hex_digit (n mod 16)%nat) EmptyString)).

(** [urllib.parse.quote(s)] *)
Fixpoint quote (s : string) : string :=
  match s with
  | EmptyString => EmptyString
  | String c s' => quote_char c +:+ quote s'
  end.

End Urllib.

(** ** [fnmatch.fnmatch]

    The model follows [fnmatch.translate] of CPython 3.11: the pattern is
    cut into pieces ([*], [?], a bracket expression, a literal), a bracket
    body is split at its range hyphens exactly as [translate] does, and the
    pieces are matched against the whole name.  The regular expression
    [translate] emits is replaced by the pieces it denotes. *)

Module Fnmatch.

(** An element of a bracket expression after [translate]'s escaping: a
    character, or the hyphen that joins two chunks into a range. *)
Inductive atom : Type :=
| Ch (c : ascii)
| RangeOp.

Inductive piece : Type :=
| PStar                                  (* [*]      -> [.*]   *)
| PAny                                   (* [?]      -> [.]    *)
| PNever                                 (* empty set -> [(?!)] *)
| PSet (negated : bool) (body : list atom)
| PLit (c : ascii).

Definition code (c : ascii) : nat := Ascii.nat_of_ascii c.

(** [pat.find(']', j)] relative to the start of the list. *)
Fixpoint find_from (c : ascii) (from : nat) (l : list ascii) : option nat :=
  match l with
  | [] => None
  | d :: l' =>
      match from with
      | O => if Ascii.eqb d c then Some O else S <$> find_from c O l'
      | S from' => S <$> find_from c from' l'
      end
  end.

(** The index [j] of the bracket's closing [']'], counted from the
    character after ['[']: a leading [!] and then a leading [']'] are
    stepped over first. *)
Definition find_close (rest : list ascii) : option nat :=
  let j0 := match rest with c :: _ => if Ascii.eqb c "!" then 1%nat else 0%nat | [] => 0%nat end in
  let j1 := match nth_error rest j0 with
            | Some c => if Ascii.eqb c "]" then S j0 else j0
            | None => j0
            end in
  find_from "]" j1 rest.

(** The [while True: k = pat.find('-', k, j) ...] loop: [skip] positions
    are not searched, [cur] is the chunk being read.  A hyphen found at
    the last position leaves an empty last chunk, and [translate] then
    appends the hyphen to the chunk before it. *)
Fixpoint split_chunks (skip : nat) (cur : list ascii) (l : list ascii)
  : list (list ascii) :=
  match l with
  | [] => [cur]
  | c :: l' =>
      match skip with
      | S n => split_chunks n (cur ++ [c]) l'
      | O =>
          if Ascii.eqb c "-" then
            match l' with
            | [] => [cur ++ [c]]
            | _ => cur :: split_chunks 2 [] l'
            end
          else split_chunks 0 (cur ++ [c]) l'
      end
  end.

(** [for k in range(len(chunks)-1, 0, -1)]: a range whose lower end is
    above its upper end is removed with both its ends. *)
Fixpoint drop_empty_ranges (chunks : list (list ascii)) : list (list ascii) :=
  match chunks with
  | [] => []
  | c :: rest =>
      match drop_empty_ranges rest with
      | [] => [c]
      | d :: ds =>
          match last (A:=ascii) c, d with
          | Some lo, hi :: d' =>
              if (code hi <? code lo)%nat then (removelast c ++ d') :: ds
              else c :: d :: ds
          | _, _ => c :: d :: ds
          end
      end
  end.

(** ['-'.join(chunks)] *)
Fixpoint join_chunks (chunks : list (list ascii)) : list atom :=
  match chunks with
  | [] => []
  | [c] => Ch <$> c
  | c :: rest => (Ch <$> c) ++ RangeOp :: join_chunks rest
  end.

(** The bracket body [stuff = pat[i:j]] turned into a piece. *)
Definition bracket (stuff : list ascii) : piece :=
  let chunks :=
    if negb (existsb (fun c => Ascii.eqb c "-") stuff) then [stuff]
    else
      let k := match stuff with
               | c :: _ => if Ascii.eqb c "!" then 2%nat else 1%nat
               | [] => 1%nat
               end in
      drop_empty_ranges (split_chunks k [] stuff) in
  match join_chunks chunks with
  | [] => PNever
  | [Ch c] => if Ascii.eqb c "!" then PAny else PSet false [Ch c]
  | Ch c :: body => if Ascii.eqb c "!" then PSet true body else PSet false (Ch c :: body)
  | body => PSet false body
  end.

(** The main loop of [translate]; [fuel] bounds the number of pieces and
    [String.length pat] is always enough. *)
Fixpoint translate_loop (fuel : nat) (pat : list ascii) (res : list piece)
  : list piece :=
  match fuel, pat with
  | O, _ => res
  | _, [] => res
  | S fuel', c :: rest =>
      if Ascii.eqb c "*" then
        match last res with
        | Some PStar => translate_loop fuel' rest res
        | _ => translate_loop fuel' rest (res ++ [PStar])
        end
      else if Ascii.eqb c "?" then translate_loop fuel' rest (res ++ [PAny])
      else if Ascii.eqb c "[" then
        match find_close rest with
        | None => translate_loop fuel' rest (res ++ [PLit c])
        | Some j =>
            translate_loop fuel' (skipn (S j) rest) (res ++ [bracket (firstn j rest)])
        end
      else translate_loop fuel' rest (res ++ [PLit c])
  end.

Definition translate (pat : string) : list piece :=
  let p := String.list_ascii_of_string pat in
  translate_loop (length p) p [].

(** Membership of a character in a bracket body, read as the regular
    expression engine reads a set: [a-b] is a range, anything else a
    single character. *)
Fixpoint in_set (body : list atom) (x : ascii) : bool :=
  match body with
  | [] => false
  | Ch lo :: RangeOp :: Ch hi :: body' =>
      ((code lo <=? code x)%nat && (code x <=? code hi)%nat) || in_set body' x
  | Ch c :: body' => Ascii.eqb c x || in_set body' x
  | RangeOp :: body' => Ascii.eqb "-" x || in_set body' x
  end.

Definition piece_matches (p : piece) (x : ascii) : bool :=
  match p with
  | PStar => false
  | PAny => true
  | PNever => false
  | PSet negated body => xorb negated (in_set body x)
  | PLit c => Ascii.eqb c x
  end.

(** Matching of the whole name ([re.match] of a pattern closed by [\Z]):
    [*] takes any run of characters, every other piece exactly one. *)
Fixpoint match_pieces (ps : list piece) (name : list ascii) : bool :=
  match ps with
  | [] => match name with [] => true | _ => false end
  | PStar :: ps' =>
      (fix star (n : list ascii) : bool :=
         match_pieces ps' n ||
         match n with
         | [] => false
         | _ :: n' => star n'
         end) name
  | p :: ps' =>
      match name with
      | [] => false
      | x :: name' => piece_matches p x && match_pieces ps' name'
      end
  end.

(** [fnmatch.fnmatch(name, pat)] *)
Definition fnmatch (name pat : string) : bool :=
  match_pieces (translate pat) (String.list_ascii_of_string name).

End Fnmatch.

(** ** [re.findall] for the two patterns of the program

    Both patterns are a literal [PRE], one group of any characters and a
    literal [POST]; [PRE] and [POST] are non-empty and hold no newline.  [re.findall] scans the text from
    left to right, returns the group of every match, and resumes after the
    match; [.] matches any character but a newline and the group is greedy. *)

Module Re.

Record pattern : Type := Pattern { lead : string; trail : string }.

(** The longest run of non-newline characters at the head of [rest]
    after which [post] follows: the length of the group, if any. *)
Fixpoint greedy (post rest : string) : option nat :=
  let here := if String.prefix post rest then Some O else None in
  match rest with
  | EmptyString => here
  | String c rest' =>
      if Ascii.eqb c Py.nl then here
      else match greedy post rest' with
           | Some k => Some (S k)
           | None => here
           end
  end.

Fixpoint scan (fuel : nat) (p : pattern) (text : string) : list string :=
  match fuel, text with
  | O, _ => []
  | _, EmptyString => []
  | S fuel', String _ text' =>
      if String.prefix (lead p) text then
        let rest := Py.drop_str (String.length (lead p)) text in
        match greedy (trail p) rest with
        | Some k =>
            Py.take_str k rest
              :: scan fuel' p (Py.drop_str (k + String.length (trail p)) rest)
        | None => scan fuel' p text'
        end
      else scan fuel' p text'
  end.

(** [re.findall(p, text)].  The value is a Python object reference, which
    a caller may compare with [None]; [findall] always returns a list. *)
Definition findall (p : pattern) (text : string) : option (list string) :=
  Some (scan (String.length text) p text).

End Re.

(** ** Exceptions, events and the world *)

(** The exceptions the program raises and the ones its collaborators can
    raise.  All of them derive from [Exception]; [KeyboardInterrupt] and
    [SystemExit], which [except Exception] lets through, are operator
    signals and not part of the model. *)
Inductive exn : Type :=
| ValueError (msg : string)
| AssertionError (msg : string)
| IndexError (msg : string)
| KeyError (key : string)
| RecursionError
| JSONDecodeError
| RequestException (msg : string)
| OSError (msg : string).

Inductive level : Type := INFO | WARNING | ERROR.

(** One object of the [dirent_list] array of the listing API.  A directory
    carries [folder_path], a file [file_path], [size] and [last_modified];
    the field that does not apply holds the empty value. *)
Record dirent : Type := Dirent {
  is_dir : bool;
  folder_path : string;
  file_path : string;
  size : Z;
  last_modified : string
}.

(** A streamed HTTP response: its status, the bytes of its body, and the
    error that cuts the stream after those bytes, if any. *)
Record response : Type := Response {
  status : Z;
  body : string;
  broken : option exn
}.

(** What the program does to the outside, in order. *)
Inductive event : Type :=
| EvGet (url : string)
| EvGetStream (url : string)
| EvPost (url : string) (data : list (string * string)) (referer : string)
| EvInput (prompt : string)
| EvLog (lv : level) (msg : string)
| EvLogExn (lv : level) (e : exn)
| EvLogSummary (count : nat) (total : Z)
| EvPrintFilelist (filelist : list dirent)
| EvPrint (line : string)
| EvMakedirs (path : string)
| EvOpen (fname : string)
| EvWrite (fname : string) (data : string)
| EvPbarOpen (total : Z)
| EvPbarDesc (i n : nat)
| EvPbarUpdate (n : Z)
| EvPbarClose.

(** The state the program changes: the events so far (oldest first), the
    content of the local files it wrote, and the bytes the progress bar
    has counted. *)
Record world : Type := World {
  trace : list event;
  files : gmap string string;
  consumed : Z
}.

Definition world0 : world := World [] ∅ 0.

(** The collaborators.  Every oracle receives the events so far, so that
    the answer of the service can depend on the session (a password posted
    earlier) and the file system on what was created. *)
Record remote : Type := Remote {
  http_text : list event -> string -> exn + string;
  http_post : list event -> string -> list (string * string) -> string -> exn + string;
  http_dirents : list event -> string -> exn + list dirent;
  http_stream : list event -> string -> exn + response;
  stdin_line : list event -> string -> string;
  os_exists : list event -> string -> bool;
  os_makedirs : list event -> string -> option exn;
  os_open_wb : list event -> string -> option exn;
  os_write : list event -> string -> string -> option exn;
  os_home : string;
  recursion_limit : nat
}.

(** ** The computation monad: state and exceptions *)

Inductive outcome (A : Type) : Type :=
| Ok (a : A)
| Raise (e : exn).
Arguments Ok {A} a.
Arguments Raise {A} e.

Definition M (A : Type) : Type := world -> outcome A * world.

Definition ret {A} (a : A) : M A := fun w => (Ok a, w).

Definition raise {A} (e : exn) : M A := fun w => (Raise e, w).

Definition bind {A B} (m : M A) (k : A -> M B) : M B :=
  fun w =>
    match m w with
    | (Ok a, w') => k a w'
    | (Raise e, w') => (Raise e, w')
    end.

(** [try: m except Exception as e: h e] *)
Definition try_except {A} (m : M A) (h : exn -> M A) : M A :=
  fun w =>
    match m w with
    | (Ok a, w') => (Ok a, w')
    | (Raise e, w') => h e w'
    end.

Declare Scope py_scope.
Delimit Scope py_scope with py.
Notation "x <- c ;; k" := (bind c (fun x => k))
  (at level 100, c at next level, right associativity) : py_scope.
Notation "c ;; k" := (bind c (fun _ => k))
  (at level 100, right associativity) : py_scope.
Local Open Scope py_scope.

Definition emit (e : event) : M unit :=
  fun w => (Ok tt, World (trace w ++ [e]) (files w) (consumed w)).

(** An oracle is asked with the events that precede the request. *)
Definition ask {A} (f : list event -> A) : M A :=
  fun w => (Ok (f (trace w)), w).

Definition lift_sum {A} (r : exn + A) : M A :=
  match r with
  | inl e => raise e
  | inr a => ret a
  end.

Definition lift_err (r : option exn) : M unit :=
  match r with
  | Some e => raise e
  | None => ret tt
  end.

Definition logging (lv : level) (msg : string) : M unit := emit (EvLog lv msg).

(** ** The program *)

Definition share_prefix : string := "https://cloud.tsinghua.edu.cn/d/".
Definition api_prefix : string := "https://cloud.tsinghua.edu.cn/api/v2.1/share-links/".

(** [https://cloud.tsinghua.edu.cn/d/{share_key}/] *)
Definition page_url (share_key : string) : string := share_prefix +:+ share_key +:+ "/".

(** The URL of the listing request of [dfs_search_files]. *)
Definition dirents_url (share_key encoded_path : string) : string :=
  api_prefix +:+ share_key +:+ "/dirents/?path=" +:+ encoded_path.

(** [file_url] of [download]: the path is inserted as it is. *)
Definition file_url (share_key path : string) : string :=
  share_prefix +:+ share_key +:+ "/files/?p=" +:+ path +:+ "&dl=1".

Definition title_pattern : Re.pattern :=
  Re.Pattern ("<meta property=" +:+ Py.dq +:+ "og:title" +:+ Py.dq +:+ " content=" +:+ Py.dq)
             (Py.dq +:+ " />").

Definition csrf_pattern : Re.pattern :=
  Re.Pattern ("<input type=" +:+ Py.dq +:+ "hidden" +:+ Py.dq +:+ " name=" +:+ Py.dq
              +:+ "csrfmiddlewaretoken" +:+ Py.dq +:+ " value=" +:+ Py.dq)
             (Py.dq +:+ ">").

(** The default of the [--pattern] option of [main]. *)
Definition default_pattern : string := "*.*".

(** [resp.iter_content(chunk_size=n)] over a body that is all there. *)
Fixpoint iter_content_fuel (fuel n : nat) (b : string) : list string :=
  match fuel, b with
  | O, _ => []
  | _, EmptyString => []
  | S fuel', _ => Py.take_str n b :: iter_content_fuel fuel' n (Py.drop_str n b)
  end.

Definition iter_content (n : nat) (b : string) : list string :=
  iter_content_fuel (String.length b) n b.

(** [is_match]: the first character of the path is dropped, whatever it
    is, and an absent pattern matches. *)
Definition is_match (file_path : string) (pattern : option string) : bool :=
  let file_path := Py.drop_str 1 file_path in
  match pattern with
  | None => true
  | Some p => Fnmatch.fnmatch file_path p
  end.

(** [filelist.sort(key=lambda x: x["file_path"])]: a stable sort. *)
Fixpoint insert_by_path (x : dirent) (l : list dirent) : list dirent :=
  match l with
  | [] => [x]
  | y :: l' =>
      if String.ltb (file_path x) (file_path y) then x :: y :: l'
      else y :: insert_by_path x l'
  end.

Definition sort_by_path (l : list dirent) : list dirent :=
  foldl (fun acc x => insert_by_path x acc) [] l.

(** [save_path] of [download]: the remote path, without its first
    character, under [save_dir]. *)
Definition save_path_of (save_dir : string) (file : dirent) : string :=
  Py.path_join save_dir (Py.drop_str 1 (file_path file)).

Definition sum_sizes (filelist : list dirent) : Z :=
  foldr (fun f acc => size f + acc) 0 filelist.

Section Program.

Variable env : remote.

(** [sess.get(url).text] *)
Definition sess_get_text (url : string) : M string :=
  r <- ask (fun h => http_text env h url) ;;
  emit (EvGet url) ;;
  lift_sum r.

(** [sess.post(url, data=data, headers={"Referer": referer}).text] *)
Definition sess_post_text (url : string) (data : list (string * string))
  (referer : string) : M string :=
  r <- ask (fun h => http_post env h url data referer) ;;
  emit (EvPost url data referer) ;;
  lift_sum r.

(** [sess.get(url).json()['dirent_list']] *)
Definition sess_get_dirents (url : string) : M (list dirent) :=
  r <- ask (fun h => http_dirents env h url) ;;
  emit (EvGet url) ;;
  lift_sum r.

(** [sess.get(url, stream=True)] *)
Definition sess_get_stream (url : string) : M response :=
  r <- ask (fun h => http_stream env h url) ;;
  emit (EvGetStream url) ;;
  lift_sum r.

(** [input(prompt)] *)
Definition input (prompt : string) : M string :=
  r <- ask (fun h => stdin_line env h prompt) ;;
  emit (EvInput prompt) ;;
  ret r.

(** [os.makedirs(path, exist_ok=True)] *)
Definition makedirs (path : string) : M unit :=
  r <- ask (fun h => os_makedirs env h path) ;;
  emit (EvMakedirs path) ;;
  lift_err r.

(** [open(fname, 'wb')]: the file is created or emptied. *)
Definition open_wb (fname : string) : M unit :=
  r <- ask (fun h => os_open_wb env h fname) ;;
  emit (EvOpen fname) ;;
  lift_err r ;;
  fun w => (Ok tt, World (trace w) (<[fname := ""]> (files w)) (consumed w)).

(** [file.write(data)]: the bytes are added at the end; the result is
    their number. *)
Definition file_write (fname data : string) : M Z :=
  r <- ask (fun h => os_write env h fname data) ;;
  emit (EvWrite fname data) ;;
  lift_err r ;;
  fun w =>
    (Ok (Z.of_nat (String.length data)),
     World (trace w) (<[fname := default "" (files w !! fname) +:+ data]> (files w))
           (consumed w)).

(** [pbar.update(n)] *)
Definition pbar_update (n : Z) : M unit :=
  emit (EvPbarUpdate n) ;;
  fun w => (Ok tt, World (trace w) (files w) (consumed w + n)).

(** [get_share_key] *)
Definition get_share_key (url : string) : M string :=
  let prefix := share_prefix in
  if negb (Py.startswith url prefix) then
    raise (ValueError ("Share link of Tsinghua Cloud should start with " +:+ prefix))
  else
    let share_key := Py.remove_char "/" (Py.drop_str (String.length prefix) url) in
    logging INFO ("Share key: " +:+ share_key) ;;
    ret share_key.

(** [assert cond, msg] *)
Definition assert_ (cond : bool) (msg : string) : M unit :=
  if cond then ret tt else raise (AssertionError msg).

(** [l[0]] *)
Definition item0 (l : list string) : M string :=
  match l with
  | x :: _ => ret x
  | [] => raise (IndexError "list index out of range")
  end.

(** [get_root_dir] *)
Definition get_root_dir (share_key : string) : M string :=
  text <- sess_get_text (page_url share_key) ;;
  let root_dir := Re.findall title_pattern text in
  assert_ (match root_dir with None => false | Some _ => true end)
          "Couldn't find title of the share link." ;;
  title <- item0 (default [] root_dir) ;;
  logging INFO ("Root directory name: " +:+ title) ;;
  item0 (default [] root_dir).

(** [verify_password] *)
Definition verify_password (share_key : string) : M unit :=
  text <- sess_get_text (page_url share_key) ;;
  let csrfmiddlewaretoken := default [] (Re.findall csrf_pattern text) in
  match csrfmiddlewaretoken with
  | [] => ret tt
  | token :: _ =>
      pwd <- input "Please enter the password: " ;;
      let data := [("csrfmiddlewaretoken", token); ("token", share_key); ("password", pwd)] in
      text' <- sess_post_text (page_url share_key) data (page_url share_key) ;;
      if Py.contains "Please enter a correct password" text' then
        raise (ValueError "Wrong password.")
      else ret tt
  end.

(** The [for obj in objects] loop of [dfs_search_files]; [recurse] is
    the nested call of [dfs_search_files] on a folder. *)
Fixpoint dfs_loop (recurse : string -> M (list dirent)) (pattern : option string)
  (objects filelist : list dirent) : M (list dirent) :=
  match objects with
  | [] => ret filelist
  | obj :: rest =>
      if is_dir obj then
        found <- recurse (folder_path obj) ;;
        dfs_loop recurse pattern rest (filelist ++ found)
      else if is_match (file_path obj) pattern then
        dfs_loop recurse pattern rest (filelist ++ [obj])
      else dfs_loop recurse pattern rest filelist
  end.

(** [dfs_search_files]; [depth] is the number of nested calls the
    interpreter still allows, and running out of it is Python's
    [RecursionError]. *)
Fixpoint dfs_search_files (depth : nat) (share_key path : string)
  (pattern : option string) : M (list dirent) :=
  match depth with
  | O => raise RecursionError
  | S depth' =>
      let encoded_path := Urllib.quote path in
      objects <- sess_get_dirents (dirents_url share_key encoded_path) ;;
      dfs_loop (fun folder => dfs_search_files depth' share_key folder pattern)
               pattern objects []
  end.

(** The [for data in resp.iter_content(...)] loop of
    [download_single_file]. *)
Fixpoint write_chunks (fname : string) (chunks : list string) : M unit :=
  match chunks with
  | [] => ret tt
  | data :: rest =>
      size <- file_write fname data ;;
      pbar_update size ;;
      write_chunks fname rest
  end.

(** [download_single_file]: the status of the response is never read. *)
Definition download_single_file (url fname : string) : M unit :=
  resp <- sess_get_stream url ;;
  open_wb fname ;;
  write_chunks fname (iter_content 1024 (body resp)) ;;
  lift_err (broken resp).

(** The body of the [for i, file in enumerate(filelist)] loop of
    [download], from index [i] on; [n] is [len(filelist)]. *)
Fixpoint download_loop (share_key save_dir : string) (n i : nat)
  (filelist : list dirent) : M unit :=
  match filelist with
  | [] => ret tt
  | file :: rest =>
      let url := file_url share_key (file_path file) in
      let save_path := save_path_of save_dir file in
      makedirs (Py.path_dirname save_path) ;;
      try_except
        (emit (EvPbarDesc (i + 1) n) ;;
         download_single_file url save_path)
        (fun e =>
           logging ERROR ("Error happened when downloading file: " +:+ save_path) ;;
           emit (EvLogExn ERROR e)) ;;
      download_loop share_key save_dir n (S i) rest
  end.

(** [download] *)
Definition download (share_key : string) (filelist : list dirent)
  (save_dir : string) : M unit :=
  there <- ask (fun h => os_exists env h save_dir) ;;
  (if there : bool then
     logging WARNING "Save directory already exists. Files will be overwritten."
   else ret tt) ;;
  let total_size := sum_sizes filelist in
  emit (EvPbarOpen total_size) ;;
  download_loop share_key save_dir (length filelist) 0 filelist ;;
  emit EvPbarClose ;;
  logging INFO "Download finished.".

(** [main]; [print_filelist] and the size summary are single events,
    their layout is not modelled. *)
Definition main (link : string) (output : option string)
  (match_pattern : string) : M unit :=
  share_key <- get_share_key link ;;
  verify_password share_key ;;
  logging INFO "Searching for files to be downloaded, Wait a moment..." ;;
  filelist <- dfs_search_files (recursion_limit env) share_key "/" (Some match_pattern) ;;
  let filelist := sort_by_path filelist in
  match filelist with
  | [] => logging INFO "No file found."
  | _ =>
      emit (EvPrintFilelist filelist) ;;
      emit (EvLogSummary (length filelist) (sum_sizes filelist)) ;;
      key <- input "Start downloading? [y/n]" ;;
      if negb (String.eqb key "y") then ret tt
      else
        save_dir <-
          match output with
          | Some d => ret d
          | None =>
              let d := Py.path_join (os_home env) "Downloads" in
              there <- ask (fun h => os_exists env h d) ;;
              assert_ there "Downloads folder not found." ;;
              ret d
          end ;;
        root_dir <- get_root_dir share_key ;;
        emit (EvPrint root_dir) ;;
        let save_dir := Py.path_join save_dir root_dir in
        download share_key filelist save_dir
  end.

(** The command line: an absent [--pattern] is [default_pattern]. *)
Definition app (link : string) (output pattern : option string) : M unit :=
  main link output (default default_pattern pattern).

End Program.

(** ** The file table *)

(** [str(n)] and ["%d" % n] for an integer. *)
Definition str_of_int (n : Z) : string := NilZero.string_of_int (Z.to_int n).

(** [c * n] for a one-character [c] *)
Fixpoint repeat_char (c : ascii) (n : nat) : string :=
  match n with
  | O => EmptyString
  | S n' => String c (repeat_char c n')
  end.

(** [s.ljust(width)] *)
Definition ljust (width : nat) (s : string) : string :=
  s +:+ repeat_char " " (width - String.length s).

(** [s.rjust(width)] *)
Definition rjust (width : nat) (s : string) : string :=
  repeat_char " " (width - String.length s) +:+ s.

(** [print(a, " ", b, " ", c)]: the arguments are joined by one space. *)
Definition print_args (args : list string) : string :=
  match args with
  | [] => ""
  | a :: rest => foldl (fun line arg => line +:+ " " +:+ arg) a rest
  end.

(** The line of one file in [print_filelist]. *)
Definition entry_line (file : dirent) : string :=
  print_args [last_modified file; " "; rjust 10 (str_of_int (size file)); " ";
              file_path file].

(** The [for i, file in enumerate(filelist, 1)] loop of [print_filelist],
    from index [i] on; [total] is [len(filelist)].  The loop is left after
    the line of index 100. *)
Fixpoint entry_lines (i total : nat) (filelist : list dirent) : list string :=
  match filelist with
  | [] => []
  | file :: rest =>
      entry_line file ::
      (if (i =? 100)%nat then
         ["... " +:+ str_of_int (Z.of_nat total - 100) +:+ " more files"]
       else entry_lines (S i) total rest)
  end.

(** The lines [print_filelist] prints. *)
Definition filelist_lines (filelist : list dirent) : list string :=
  [repeat_char "=" 100;
   print_args [ljust 25 "Last Modified Time"; " "; rjust 10 "File Size"; " "; "File Path"];
   repeat_char "-" 100]
  ++ entry_lines 1 (length filelist) filelist
  ++ [repeat_char "-" 100].

(** [print_filelist] *)
Definition print_filelist (filelist : list dirent) : M unit :=
  foldr (fun line rest => emit (EvPrint line) ;; rest) (ret tt) (filelist_lines filelist).

(** ** Further observations *)

(** A listing request for a folder of the share [share_key]. *)
Definition is_listing_of (share_key : string) (e : event) : Prop :=
  exists path, e = EvGet (dirents_url share_key (Urllib.quote path)).

(** The order of [filelist.sort(key=lambda x: x["file_path"])]. *)
Definition path_le (x y : dirent) : Prop :=
  String.leb (file_path x) (file_path y) = true.

(** The labels the progress bar was given, in order. *)
Fixpoint labels (evs : list event) : list (nat * nat) :=
  match evs with
  | [] => []
  | EvPbarDesc i n :: evs' => (i, n) :: labels evs'
  | _ :: evs' => labels evs'
  end.

(** The lines printed, in order. *)
Fixpoint printed (evs : list event) : list string :=
  match evs with
  | [] => []
  | EvPrint line :: evs' => line :: printed evs'
  | _ :: evs' => printed evs'
  end.

(** Events that leave the local files and the service's files alone:
    everything but a download request, the creation of a directory and
    the opening or writing of a file. *)
Definition harmless (e : event) : bool :=
  match e with
  | EvGetStream _ | EvMakedirs _ | EvOpen _ | EvWrite _ _ => false
  | _ => true
  end.

(** ** What the specification says, in its own words *)

(** Modelled on the specification's sentence on [match]: "relative_path
    has any single leading path separator stripped before comparison"; an
    absent pattern matches unconditionally. *)
Definition strip_leading_sep (path : string) : string :=
  match path with
  | String c rest => if Ascii.eqb c "/" then rest else path
  | EmptyString => EmptyString
  end.

Definition match_spec (path : string) (pattern : option string) : bool :=
  match pattern with
  | None => true
  | Some p => Fnmatch.fnmatch (strip_leading_sep path) p
  end.

(** The suffix of a share link "with all slash characters removed". *)
Definition without_slashes (s : string) : string :=
  String.string_of_list_ascii
    (filter (fun c => c <> "/"%char) (String.list_ascii_of_string s)).

(** ** Observations on a trace *)

(** The URLs of the download requests, in order. *)
Fixpoint attempts (evs : list event) : list string :=
  match evs with
  | [] => []
  | EvGetStream url :: evs' => url :: attempts evs'
  | _ :: evs' => attempts evs'
  end.

(** The prompts shown to the operator, in order. *)
Fixpoint prompts (evs : list event) : list string :=
  match evs with
  | [] => []
  | EvInput prompt :: evs' => prompt :: prompts evs'
  | _ :: evs' => prompts evs'
  end.

(** The completion notice of [download]. *)
Definition is_completion (e : event) : bool :=
  match e with
  | EvLog INFO msg => String.eqb msg "Download finished."
  | _ => false
  end.

(** A request to the directory-listing API. *)
Definition is_listing (e : event) : bool :=
  match e with
  | EvGet url => Py.startswith url api_prefix
  | _ => false
  end.

(** What every entry of the walker's result satisfies. *)
Definition selected (pattern : option string) (e : dirent) : Prop :=
  is_dir e = false /\ is_match (file_path e) pattern = true.

(** Events that are neither a download request nor the completion notice. *)
Definition silent (e : event) : bool :=
  match e with
  | EvGetStream _ => false
  | EvLog INFO _ => false
  | _ => true
  end.

(** The directory [download] creates before the transfer of [file]. *)
Definition parent_of (save_dir : string) (file : dirent) : string :=
  Py.path_dirname (save_path_of save_dir file).

(** The bytes of a sequence of chunks. *)
Definition concat_str (chunks : list string) : string :=
  foldr String.append "" chunks.

(** ** Scenarios *)

(** A collaborator that answers by URL and path only: the share page, the
    reply to the password form, the listings, the file streams, the
    directories that cannot be created and the operator's answers. *)
Definition scenario (page reply : string)
  (listing : string -> exn + list dirent)
  (stream : string -> exn + response)
  (mkdir : string -> option exn)
  (answer : string -> string) : remote :=
  Remote (fun _ _ => inr page)
         (fun _ _ _ _ => inr reply)
         (fun _ url => listing url)
         (fun _ url => stream url)
         (fun _ prompt => answer prompt)
         (fun _ _ => false)
         (fun _ path => mkdir path)
         (fun _ _ => None)
         (fun _ _ _ => None)
         "/home/user"
         1000.

Definition file_entry (path : string) (sz : Z) : dirent :=
  Dirent false "" path sz "2024-01-01T00:00:00+08:00".

Definition dir_entry (path : string) : dirent :=
  Dirent true path "" 0 "".

(** A public share page with a title. *)
Definition public_page : string :=
  "<html><head>" +:+ Re.lead title_pattern +:+ "course" +:+ Re.trail title_pattern
  +:+ "</head></html>".

(** A share page that asks for a password. *)
Definition locked_page : string :=
  "<form>" +:+ Re.lead csrf_pattern +:+ "tok42" +:+ Re.trail csrf_pattern +:+ "</form>".

Definition no_listing (url : string) : exn + list dirent := inr [].
Definition no_stream (url : string) : exn + response := inl (RequestException "connection refused").
Definition mkdir_ok (path : string) : option exn := None.
Definition say_yes (prompt : string) : string := "y".

(** A page without the title marker. *)
Definition untitled : remote :=
  scenario "<html><title>404</title></html>" "" no_listing no_stream mkdir_ok say_yes.

(** A locked share whose form rejects the password. *)
Definition locked_wrong : remote :=
  scenario locked_page "<p>Please enter a correct password.</p>"
           no_listing no_stream mkdir_ok (fun _ => "guess").

Definition tree_a (url : string) : exn + list dirent :=
  if String.eqb url (dirents_url "abc123" "/") then
    inr [file_entry "/a.txt" 10; dir_entry "/sub"; file_entry "/notes.md" 5]
  else if String.eqb url (dirents_url "abc123" "/sub") then
    inr [file_entry "/sub/b.txt" 20; dir_entry "/sub/empty"]
  else if String.eqb url (dirents_url "abc123" "/sub/empty") then inr []
  else inl (KeyError "dirent_list").

(** Scenario A of the specification: a public share with [/a.txt] and
    [/sub/b.txt]. *)
Definition scenario_a : remote :=
  scenario public_page "" tree_a no_stream mkdir_ok say_yes.

Definition stream_d (url : string) : exn + response :=
  if String.eqb url (file_url "abc123" "/a.txt") then
    inl (RequestException "connection reset")
  else inr (Response 200 "twenty bytes of data" None).

(** Scenario D of the specification: the transfer of the first of two
    files fails. *)
Definition scenario_d : remote :=
  scenario public_page "" tree_a stream_d mkdir_ok say_yes.

Definition mkdir_sub_denied (path : string) : option exn :=
  if String.eqb path "/home/user/Downloads/course/sub" then
    Some (OSError "Permission denied")
  else None.

(** The directory of the first file cannot be created. *)
Definition scenario_denied : remote :=
  scenario public_page "" tree_a stream_d mkdir_sub_denied say_yes.

Definition stream_404 (url : string) : exn + response :=
  inr (Response 404 "<h1>Not Found</h1>" None).

(** The service answers every download request with status 404. *)
Definition scenario_404 : remote :=
  scenario public_page "" tree_a stream_404 mkdir_ok say_yes.

Definition tree_makefile (url : string) : exn + list dirent :=
  if String.eqb url (dirents_url "abc123" "/") then
    inr [file_entry "/Makefile" 120; file_entry "/README" 30]
  else inl (KeyError "dirent_list").

(** A public share whose two files have no dot in their names. *)
Definition scenario_makefile : remote :=
  scenario public_page "" tree_makefile no_stream mkdir_ok say_yes.

Definition stream_ok (url : string) : exn + response := inr (Response 200 "abc" None).

Definition tree_amp (url : string) : exn + list dirent :=
  if String.eqb url (dirents_url "abc123" "/") then inr [dir_entry "/a&b"]
  else if String.eqb url (dirents_url "abc123" "/a%26b") then
    inr [file_entry "/a&b/c.txt" 3]
  else inl (KeyError "dirent_list").

(** A public share with a folder named [a&b]. *)
Definition scenario_amp : remote :=
  scenario public_page "" tree_amp stream_ok mkdir_ok say_yes.

(** The run of [m] from [w] leaves the local files and the progress
    counter as they are, and every event it adds satisfies [allowed]. *)
Definition confined_at {A} (allowed : event -> Prop) (m : M A) (w : world) : Prop :=
  files (snd (m w)) = files w
  /\ consumed (snd (m w)) = consumed w
  /\ exists evs, trace (snd (m w)) = trace w ++ evs /\ Forall allowed evs.

(** The run of [m] from [w] stops at the first listing that fails: if a
    listing request it sent (after the events [before]) was answered with
    an error, nothing follows that request and the run ends in that
    error. *)
Definition stops_at_failure (env : remote) {A} (m : M A) (w : world) : Prop :=
  exists evs,
    trace (snd (m w)) = trace w ++ evs
    /\ forall before url after e,
         evs = before ++ EvGet url :: after ->
         http_dirents env (trace w ++ before) url = inl e ->
         after = [] /\ fst (m w) = Raise e.

Definition tree_deep (url : string) : exn + list dirent :=
  if String.eqb url (dirents_url "abc123" "/") then
    inr [file_entry "/a.txt" 10; dir_entry "/one"; dir_entry "/two"; file_entry "/z.txt" 5]
  else if String.eqb url (dirents_url "abc123" "/one") then
    inr [file_entry "/one/x.txt" 7]
  else if String.eqb url (dirents_url "abc123" "/two") then
    inr [file_entry "/two/y.txt" 8; dir_entry "/two/deep"]
  else inl (KeyError "dirent_list").

(** A public share in which the listing of a folder two levels down, in
    the second folder of the root, is refused. *)
Definition scenario_deep : remote :=
  scenario public_page "" tree_deep no_stream mkdir_ok say_yes.

(** A share in which every folder holds one folder: a tree without end. *)
Definition endless : remote :=
  scenario public_page "" (fun _ => inr [dir_entry "/loop"]) no_stream mkdir_ok say_yes.

(** A public share whose file is cut after five bytes. *)
Definition scenario_cut : remote :=
  scenario public_page "" tree_a
           (fun _ => inr (Response 200 "hello" (Some (RequestException "connection broken"))))
           mkdir_ok say_yes.

(** The operator answers the confirmation with a capital Y. *)
Definition scenario_capital : remote :=
  scenario public_page "" tree_a stream_d mkdir_ok (fun _ => "Y").

(** A locked share whose form accepts the password. *)
Definition locked_right : remote :=
  scenario locked_page "<html>files</html>" tree_a no_stream mkdir_ok (fun _ => "secret").

Definition tree_private (url : string) : exn + list dirent :=
  if String.eqb url (dirents_url "abc123" "/") then
    inr [file_entry "/a.txt" 10; dir_entry "/private"; file_entry "/z.txt" 5]
  else inl (KeyError "dirent_list").

(** A public share with a folder whose listing is refused. *)
Definition scenario_private : remote :=
  scenario public_page "" tree_private no_stream mkdir_ok say_yes.

(** * Properties *)

(** ** Python string operations *)

Example join_rel : Py.path_join "/home/u/Downloads" "share" = "/home/u/Downloads/share".
Proof. reflexivity. Qed.

Example join_abs : Py.path_join "/home/u" "/etc/x" = "/etc/x".
Proof. reflexivity. Qed.

Example dirname_nested : Py.path_dirname "/d/share/sub/b.txt" = "/d/share/sub".
Proof. reflexivity. Qed.

Example dirname_root : Py.path_dirname "//a" = "//".
Proof. reflexivity. Qed.

Example dirname_plain : Py.path_dirname "a.txt" = "".
Proof. reflexivity. Qed.

(** ** [urllib.parse.quote] *)

Example quote_plain : Urllib.quote "/sub/b.txt" = "/sub/b.txt".
Proof. reflexivity. Qed.

Example quote_space : Urllib.quote "/my docs/a&b.txt" = "/my%20docs/a%26b.txt".
Proof. reflexivity. Qed.

(** ** [fnmatch.fnmatch] *)

Example fn_all : Fnmatch.fnmatch "sub/b.txt" "*.txt" = true.
Proof. reflexivity. Qed.
Example fn_q : Fnmatch.fnmatch "a.ppt" "*.pptx?" = false.
Proof. reflexivity. Qed.
Example fn_q2 : Fnmatch.fnmatch "a.pptxm" "*.pptx?" = true.
Proof. reflexivity. Qed.
Example fn_set : Fnmatch.fnmatch "b2" "[a-c][!0-1]" = true.
Proof. reflexivity. Qed.
Example fn_set2 : Fnmatch.fnmatch "d2" "[a-c][!0-1]" = false.
Proof. reflexivity. Qed.
Example fn_open : Fnmatch.fnmatch "[a" "[a" = true.
Proof. reflexivity. Qed.
Example fn_rb : Fnmatch.fnmatch "]" "[]]" = true.
Proof. reflexivity. Qed.
Example fn_er : Fnmatch.fnmatch "b" "[b-a]" = false.
Proof. reflexivity. Qed.
Example fn_er2 : Fnmatch.fnmatch "q" "[b-a!x]" = true.
Proof. reflexivity. Qed.
Example fn_hy : Fnmatch.fnmatch "-" "[a-b-c]" = true.
Proof. reflexivity. Qed.
Example fn_dot : Fnmatch.fnmatch "Makefile" "*.*" = false.
Proof. reflexivity. Qed.

(** ** [re.findall] for the two patterns of the program *)

Example findall_two :
  Re.findall (Re.Pattern "<b>" "</b>") ("x<b>one</b> <b>two</b>" +:+ String Py.nl "<b>three</b></b>")
  = Some ["one</b> <b>two"; "three</b>"].
Proof. reflexivity. Qed.

Example findall_none : Re.findall (Re.Pattern "<b>" "</b>") ("<b>one" +:+ String Py.nl "</b>") = Some [].
Proof. reflexivity. Qed.

(** ** Strings *)

Lemma app_str_cons (c : ascii) (s t : string) : String c s +:+ t = String c (s +:+ t).
Proof. reflexivity. Qed.

Lemma app_str_empty_l (s : string) : "" +:+ s = s.
Proof. reflexivity. Qed.

Lemma prefix_app (p s : string) : String.prefix p (p +:+ s) = true.
Proof.
  induction p as [|c p IH]; simpl.
  - now destruct s.
  - destruct (ascii_dec c c); [exact IH | congruence].
Qed.

Lemma prefix_char (c d : ascii) (s : string) :
  String.prefix (String c "") (String d s) = true -> c = d.
Proof.
  intros H.
  change ((if ascii_dec c d then String.prefix "" s else false) = true) in H.
  now destruct (ascii_dec c d).
Qed.

Lemma prefix_split (p s : string) :
  String.prefix p s = true -> exists t, s = p +:+ t.
Proof.
  revert s. induction p as [|c p IH]; intros s H.
  - now exists s.
  - destruct s as [|d s]; simpl in H; [discriminate|].
    destruct (ascii_dec c d) as [->|]; [|discriminate].
    destruct (IH _ H) as [t ->]. now exists t.
Qed.

Lemma drop_str_app (p s : string) : Py.drop_str (String.length p) (p +:+ s) = s.
Proof. induction p as [|c p IH]; simpl; [now destruct s | exact IH]. Qed.

Lemma take_drop_str (n : nat) (s : string) : Py.take_str n s +:+ Py.drop_str n s = s.
Proof.
  revert s. induction n as [|n IH]; intros [|c s]; simpl; try reflexivity.
  rewrite app_str_cons. f_equal. apply IH.
Qed.

Lemma length_drop_str (n : nat) (s : string) :
  String.length (Py.drop_str n s) = (String.length s - n)%nat.
Proof.
  revert s. induction n as [|n IH]; intros [|c s]; simpl; try reflexivity.
  apply IH.
Qed.

Lemma length_app_str (s t : string) :
  String.length (s +:+ t) = (String.length s + String.length t)%nat.
Proof.
  induction s as [|c s IH]; [reflexivity|].
  rewrite app_str_cons. simpl. now rewrite IH.
Qed.

Lemma app_str_assoc (s t u : string) : (s +:+ t) +:+ u = s +:+ (t +:+ u).
Proof.
  induction s as [|c s IH]; [reflexivity|].
  rewrite !app_str_cons. now rewrite IH.
Qed.

Lemma app_str_empty_r (s : string) : s +:+ "" = s.
Proof.
  induction s as [|c s IH]; [reflexivity|].
  rewrite app_str_cons. now rewrite IH.
Qed.

Lemma remove_char_without_slashes (s : string) :
  Py.remove_char "/" s = without_slashes s.
Proof.
  unfold without_slashes. induction s as [|c s IH]; simpl; [reflexivity|].
  destruct (Ascii.eqb_spec c "/") as [->|Hne].
  - rewrite IH. now rewrite filter_cons_False by (intros H; now apply H).
  - rewrite filter_cons_True by exact Hne. simpl. now rewrite IH.
Qed.

Lemma remove_char_has_none (c : ascii) (s : string) :
  Py.has_char c (Py.remove_char c s) = false.
Proof.
  induction s as [|d s IH]; simpl; [reflexivity|].
  destruct (Ascii.eqb_spec d c) as [->|Hne]; [exact IH|].
  simpl. rewrite IH. destruct (Ascii.eqb_spec d c); [contradiction | reflexivity].
Qed.

(** ** The share key *)

Lemma without_slashes_no_slash (s : string) : Py.has_char "/" (without_slashes s) = false.
Proof. rewrite <- remove_char_without_slashes. apply remove_char_has_none. Qed.

Lemma get_share_key_prefixed (suffix : string) (w : world) :
  get_share_key (share_prefix +:+ suffix) w =
    (Ok (without_slashes suffix),
     World (trace w ++ [EvLog INFO ("Share key: " +:+ without_slashes suffix)])
           (files w) (consumed w)).
Proof.
  unfold get_share_key, Py.startswith.
  rewrite prefix_app, drop_str_app, remove_char_without_slashes.
  reflexivity.
Qed.

Lemma get_share_key_other (url : string) (w : world) :
  String.prefix share_prefix url = false ->
  get_share_key url w =
    (Raise (ValueError ("Share link of Tsinghua Cloud should start with " +:+ share_prefix)), w).
Proof. intros H. unfold get_share_key, Py.startswith. now rewrite H. Qed.

(** C6. For every URL that is the fixed share-link prefix followed by a
    suffix, [get_share_key] returns the suffix with all slash characters
    removed (and logs it); for every other string it raises the
    invalid-link [ValueError], returns no key and leaves the world as it
    was. *)
Theorem get_share_key_spec (url : string) (w : world) :
  (forall suffix, url = share_prefix +:+ suffix ->
     get_share_key url w =
       (Ok (without_slashes suffix),
        World (trace w ++ [EvLog INFO ("Share key: " +:+ without_slashes suffix)])
              (files w) (consumed w))
     /\ Py.has_char "/" (without_slashes suffix) = false)
  /\ ((forall suffix, url <> share_prefix +:+ suffix) ->
      get_share_key url w =
        (Raise (ValueError ("Share link of Tsinghua Cloud should start with "
                            +:+ share_prefix)), w)).
Proof.
  split.
  - intros suffix ->. split.
    + apply get_share_key_prefixed.
    + apply without_slashes_no_slash.
  - intros Hno. apply get_share_key_other.
    destruct (String.prefix share_prefix url) eqn:Hp; [|reflexivity].
    destruct (prefix_split _ _ Hp) as [t ->]. now destruct (Hno t).
Qed.

Lemma get_share_key_spec_witness :
  fst (get_share_key "https://cloud.tsinghua.edu.cn/d/abc123/" world0) = Ok "abc123"
  /\ fst (get_share_key "https://example.org/d/abc123/" world0)
     = Raise (ValueError "Share link of Tsinghua Cloud should start with https://cloud.tsinghua.edu.cn/d/").
Proof.
  split.
  - destruct (get_share_key_spec "https://cloud.tsinghua.edu.cn/d/abc123/" world0) as [H _].
    destruct (H "abc123/" eq_refl) as [-> _]. reflexivity.
  - destruct (get_share_key_spec "https://example.org/d/abc123/" world0) as [_ H].
    rewrite H; [reflexivity|].
    intros suffix Heq. discriminate Heq.
Defined.

(** ** The root title *)

Lemma contains_cons_false (p : string) (c : ascii) (s : string) :
  Py.contains p (String c s) = false ->
  String.prefix p (String c s) = false /\ Py.contains p s = false.
Proof.
  intros H. change (String.prefix p (String c s) || Py.contains p s = false) in H.
  now apply orb_false_iff in H.
Qed.

Lemma scan_step (fuel : nat) (p : Re.pattern) (c : ascii) (text : string) :
  Re.scan (S fuel) p (String c text) =
    if String.prefix (Re.lead p) (String c text) then
      let rest := Py.drop_str (String.length (Re.lead p)) (String c text) in
      match Re.greedy (Re.trail p) rest with
      | Some k =>
          Py.take_str k rest
            :: Re.scan fuel p (Py.drop_str (k + String.length (Re.trail p)) rest)
      | None => Re.scan fuel p text
      end
    else Re.scan fuel p text.
Proof. reflexivity. Qed.

Lemma scan_without_lead (fuel : nat) (p : Re.pattern) (text : string) :
  Py.contains (Re.lead p) text = false -> Re.scan fuel p text = [].
Proof.
  revert text. induction fuel as [|fuel IH]; intros [|c text] H; try reflexivity.
  apply contains_cons_false in H as [Hp Hc].
  rewrite scan_step, Hp. now apply IH.
Qed.

Lemma get_root_dir_run (env : remote) (share_key : string) (w : world) (text : string) :
  http_text env (trace w) (page_url share_key) = inr text ->
  get_root_dir env share_key w =
    match Re.scan (String.length text) title_pattern text with
    | [] => (Raise (IndexError "list index out of range"),
             World (trace w ++ [EvGet (page_url share_key)]) (files w) (consumed w))
    | title :: _ =>
        (Ok title,
         World ((trace w ++ [EvGet (page_url share_key)])
                  ++ [EvLog INFO ("Root directory name: " +:+ title)])
               (files w) (consumed w))
    end.
Proof.
  intros H.
  unfold get_root_dir, sess_get_text, bind, ask, emit, lift_sum, Re.findall. simpl.
  rewrite H. simpl.
  destruct (Re.scan (String.length text) title_pattern text); reflexivity.
Qed.

(** C10. Whatever text the share page returns, the condition asserted in
    [get_root_dir] (the result of [re.findall] is not [None]) holds, so the
    run never ends in the [AssertionError]; when the page has no title
    marker the match list is empty and the run ends in the [IndexError] of
    [root_dir[0]], right after the page request. *)
Theorem get_root_dir_assert_never_fires (env : remote) (share_key : string)
  (w : world) (text : string) :
  http_text env (trace w) (page_url share_key) = inr text ->
  Re.findall title_pattern text <> None
  /\ (forall msg, fst (get_root_dir env share_key w) <> Raise (AssertionError msg))
  /\ (Py.contains (Re.lead title_pattern) text = false ->
      Re.findall title_pattern text = Some [])
  /\ (Re.findall title_pattern text = Some [] ->
      get_root_dir env share_key w =
        (Raise (IndexError "list index out of range"),
         World (trace w ++ [EvGet (page_url share_key)]) (files w) (consumed w))).
Proof.
  intros H. rewrite (get_root_dir_run _ _ _ _ H).
  repeat split.
  - discriminate.
  - intros msg. destruct (Re.scan _ _ _); discriminate.
  - intros Hc. unfold Re.findall. now rewrite scan_without_lead.
  - unfold Re.findall. intros [= ->]. reflexivity.
Qed.

Lemma get_root_dir_assert_never_fires_witness :
  get_root_dir untitled "abc123" world0 =
    (Raise (IndexError "list index out of range"),
     World [EvGet "https://cloud.tsinghua.edu.cn/d/abc123/"] ∅ 0).
Proof.
  destruct (get_root_dir_assert_never_fires untitled "abc123" world0
              "<html><title>404</title></html>" eq_refl) as (_ & _ & Hc & Hi).
  apply Hi, Hc. reflexivity.
Defined.

(** ** Running the primitives *)

Lemma bind_ok {A B} (m : M A) (k : A -> M B) (w w' : world) (a : A) :
  m w = (Ok a, w') -> bind m k w = k a w'.
Proof. intros H. unfold bind. now rewrite H. Qed.

Lemma bind_raise {A B} (m : M A) (k : A -> M B) (w w' : world) (e : exn) :
  m w = (Raise e, w') -> bind m k w = (Raise e, w').
Proof. intros H. unfold bind. now rewrite H. Qed.

Lemma sess_get_text_run (env : remote) (url : string) (w : world) :
  sess_get_text env url w =
    (match http_text env (trace w) url with inl e => Raise e | inr t => Ok t end,
     World (trace w ++ [EvGet url]) (files w) (consumed w)).
Proof.
  unfold sess_get_text, bind, ask, emit, lift_sum, raise, ret.
  now destruct (http_text env (trace w) url).
Qed.

Lemma sess_post_text_run (env : remote) (url : string) (data : list (string * string))
  (referer : string) (w : world) :
  sess_post_text env url data referer w =
    (match http_post env (trace w) url data referer with inl e => Raise e | inr t => Ok t end,
     World (trace w ++ [EvPost url data referer]) (files w) (consumed w)).
Proof.
  unfold sess_post_text, bind, ask, emit, lift_sum, raise, ret.
  now destruct (http_post env (trace w) url data referer).
Qed.

Lemma input_run (env : remote) (prompt : string) (w : world) :
  input env prompt w =
    (Ok (stdin_line env (trace w) prompt),
     World (trace w ++ [EvInput prompt]) (files w) (consumed w)).
Proof. reflexivity. Qed.

(** ** Authentication precedes enumeration *)

Lemma verify_password_rejected (env : remote) (share_key : string) (w : world)
  (text token reply : string) (more : list string) :
  http_text env (trace w) (page_url share_key) = inr text ->
  Re.findall csrf_pattern text = Some (token :: more) ->
  (forall h data referer, http_post env h (page_url share_key) data referer = inr reply) ->
  Py.contains "Please enter a correct password" reply = true ->
  verify_password env share_key w =
    (Raise (ValueError "Wrong password."),
     World (trace w ++
              [EvGet (page_url share_key);
               EvInput "Please enter the password: ";
               EvPost (page_url share_key)
                      [("csrfmiddlewaretoken", token); ("token", share_key);
                       ("password",
                        stdin_line env (trace w ++ [EvGet (page_url share_key)])
                                   "Please enter the password: ")]
                      (page_url share_key)])
           (files w) (consumed w)).
Proof.
  intros Hpage Htok Hpost Hrej.
  unfold verify_password.
  erewrite bind_ok by (rewrite sess_get_text_run, Hpage; reflexivity).
  rewrite Htok. cbn [from_option id].
  erewrite bind_ok by apply input_run.
  erewrite bind_ok by (rewrite sess_post_text_run, Hpost; reflexivity).
  rewrite Hrej. unfold raise. cbn [trace files consumed].
  now rewrite <- !app_assoc.
Qed.

(** C9. On a password-protected share (the page carries the anti-forgery
    token) whose form rejects the password the operator entered, the run
    asks for the password once, ends in [ValueError "Wrong password."],
    and none of the requests it sent is a directory-listing request. *)
Theorem wrong_password_precedes_listing (env : remote) (suffix : string)
  (output : option string) (match_pattern : string) (w : world)
  (text token reply : string) (more : list string) :
  let share_key := without_slashes suffix in
  (forall h, http_text env h (page_url share_key) = inr text) ->
  Re.findall csrf_pattern text = Some (token :: more) ->
  (forall h data referer, http_post env h (page_url share_key) data referer = inr reply) ->
  Py.contains "Please enter a correct password" reply = true ->
  exists evs,
    main env (share_prefix +:+ suffix) output match_pattern w =
      (Raise (ValueError "Wrong password."), World (trace w ++ evs) (files w) (consumed w))
    /\ Forall (fun e => is_listing e = false) evs
    /\ prompts evs = ["Please enter the password: "].
Proof.
  intros share_key Hpage Htok Hpost Hrej.
  eexists. split; [|split].
  - unfold main.
    erewrite bind_ok by apply get_share_key_prefixed.
    erewrite bind_raise by (eapply verify_password_rejected; eauto).
    cbn [trace files consumed]. rewrite <- app_assoc. reflexivity.
  - repeat constructor.
  - reflexivity.
Qed.

Lemma wrong_password_precedes_listing_witness :
  exists evs,
    main locked_wrong "https://cloud.tsinghua.edu.cn/d/abc123/" None "*.txt" world0 =
      (Raise (ValueError "Wrong password."), World evs ∅ 0)
    /\ Forall (fun e => is_listing e = false) evs
    /\ prompts evs = ["Please enter the password: "].
Proof.
  apply (wrong_password_precedes_listing locked_wrong "abc123/" None "*.txt" world0
           locked_page "tok42" "<p>Please enter a correct password.</p>" []).
  - reflexivity.
  - reflexivity.
  - reflexivity.
  - reflexivity.
Defined.

(** ** The pattern matcher *)

Lemma is_match_rooted (rest : string) (pattern : option string) :
  is_match (String "/" rest) pattern = match_spec (String "/" rest) pattern.
Proof. reflexivity. Qed.

Lemma is_match_absent (path : string) : is_match path None = true.
Proof. reflexivity. Qed.

(** ** The walker *)

Lemma dfs_loop_selected (recurse : string -> M (list dirent)) (pattern : option string) :
  (forall folder w l w', recurse folder w = (Ok l, w') -> Forall (selected pattern) l) ->
  forall objects filelist w l w',
    Forall (selected pattern) filelist ->
    dfs_loop recurse pattern objects filelist w = (Ok l, w') ->
    Forall (selected pattern) l.
Proof.
  intros Hrec objects.
  induction objects as [|obj rest IH]; intros filelist w l w' Hacc Hrun.
  - injection Hrun as <- _. exact Hacc.
  - cbn [dfs_loop] in Hrun.
    destruct (is_dir obj) eqn:Hdir.
    + unfold bind in Hrun.
      destruct (recurse (folder_path obj) w) as [[found|e] w1] eqn:Hsub; [|discriminate].
      eapply IH; [|exact Hrun].
      apply Forall_app. split; [exact Hacc | eapply Hrec; exact Hsub].
    + destruct (is_match (file_path obj) pattern) eqn:Hm.
      * eapply IH; [|exact Hrun].
        apply Forall_app. split; [exact Hacc|].
        constructor; [split; assumption | constructor].
      * eapply IH; eassumption.
Qed.

Lemma dfs_search_files_selected (env : remote) (depth : nat) :
  forall share_key path pattern w l w',
    dfs_search_files env depth share_key path pattern w = (Ok l, w') ->
    Forall (selected pattern) l.
Proof.
  induction depth as [|depth IH]; intros share_key path pattern w l w' Hrun.
  - discriminate.
  - cbn [dfs_search_files] in Hrun. unfold bind at 1 in Hrun.
    destruct (sess_get_dirents env _ w) as [[objects|e] w1]; [|discriminate].
    eapply dfs_loop_selected; [| constructor | exact Hrun].
    intros folder w2 l2 w2' H. eapply IH. exact H.
Qed.

(** Scenario A of the specification: the manifest is [/a.txt] and
    [/sub/b.txt], 30 bytes in all; scenario B: no file matches [*.pdf]. *)
Example scenario_a_manifest :
  fst (dfs_search_files scenario_a 1000 "abc123" "/" (Some "*.txt") world0)
    = Ok [file_entry "/a.txt" 10; file_entry "/sub/b.txt" 20]
  /\ sum_sizes [file_entry "/a.txt" 10; file_entry "/sub/b.txt" 20] = 30
  /\ fst (dfs_search_files scenario_a 1000 "abc123" "/" (Some "*.pdf") world0) = Ok [].
Proof. vm_compute. repeat split. Qed.

(** C7. Whatever the remote tree and the pattern, every entry of the list
    the walker returns is a file entry ([is_dir] is false) whose path
    passes [is_match] for the active pattern: the pattern is absent or the
    path without its first character matches the glob; for a path that
    starts with the separator that is the path with the leading separator
    stripped.  No directory entry is in the list. *)
Theorem walker_returns_matching_files (env : remote) (depth : nat)
  (share_key path : string) (pattern : option string) (w w' : world)
  (manifest : list dirent) :
  dfs_search_files env depth share_key path pattern w = (Ok manifest, w') ->
  Forall (fun e =>
            is_dir e = false
            /\ is_match (file_path e) pattern = true
            /\ (pattern = None \/
                exists p, pattern = Some p /\
                          Fnmatch.fnmatch (Py.drop_str 1 (file_path e)) p = true)
            /\ (Py.startswith (file_path e) "/" = true ->
                match_spec (file_path e) pattern = true))
         manifest.
Proof.
  intros Hrun. apply dfs_search_files_selected in Hrun.
  eapply Forall_impl; [exact Hrun|].
  intros e [Hdir Hm]. repeat split; try assumption.
  - destruct pattern as [p|]; [right; now exists p | now left].
  - intros Hs. unfold Py.startswith in Hs.
    destruct (file_path e) as [|c rest]; [discriminate Hs|].
    apply prefix_char in Hs as <-.
    now rewrite <- is_match_rooted.
Qed.

Lemma walker_returns_matching_files_witness :
  Forall (fun e =>
            is_dir e = false
            /\ is_match (file_path e) (Some "*.txt") = true
            /\ (Some "*.txt" = None \/
                exists p, Some "*.txt" = Some p /\
                          Fnmatch.fnmatch (Py.drop_str 1 (file_path e)) p = true)
            /\ (Py.startswith (file_path e) "/" = true ->
                match_spec (file_path e) (Some "*.txt") = true))
         [file_entry "/a.txt" 10; file_entry "/sub/b.txt" 20].
Proof.
  eapply (walker_returns_matching_files scenario_a 3 "abc123" "/" (Some "*.txt") world0).
  reflexivity.
Defined.

(** ** The download loop *)

Lemma bind_assoc {A B C} (m : M A) (k : A -> M B) (k' : B -> M C) (w : world) :
  bind (bind m k) k' w = bind m (fun a => bind (k a) k') w.
Proof. unfold bind. destruct (m w) as [[a|e] w1]; reflexivity. Qed.

Lemma bind_cong {A B} (m : M A) (k k' : A -> M B) (w : world) :
  (forall a w', k a w' = k' a w') -> bind m k w = bind m k' w.
Proof. intros H. unfold bind. destruct (m w) as [[a|e] w1]; [apply H | reflexivity]. Qed.

Lemma makedirs_run (env : remote) (path : string) (w : world) :
  makedirs env path w =
    (match os_makedirs env (trace w) path with Some e => Raise e | None => Ok tt end,
     World (trace w ++ [EvMakedirs path]) (files w) (consumed w)).
Proof.
  unfold makedirs, bind, ask, emit, lift_err, raise, ret.
  now destruct (os_makedirs env (trace w) path).
Qed.

Lemma sess_get_stream_run (env : remote) (url : string) (w : world) :
  sess_get_stream env url w =
    (match http_stream env (trace w) url with inl e => Raise e | inr r => Ok r end,
     World (trace w ++ [EvGetStream url]) (files w) (consumed w)).
Proof.
  unfold sess_get_stream, bind, ask, emit, lift_sum, raise, ret.
  now destruct (http_stream env (trace w) url).
Qed.

Lemma open_wb_run (env : remote) (fname : string) (w : world) :
  open_wb env fname w =
    match os_open_wb env (trace w) fname with
    | Some e => (Raise e, World (trace w ++ [EvOpen fname]) (files w) (consumed w))
    | None => (Ok tt, World (trace w ++ [EvOpen fname]) (<[fname := ""]> (files w)) (consumed w))
    end.
Proof.
  unfold open_wb, bind, ask, emit, lift_err, raise, ret.
  now destruct (os_open_wb env (trace w) fname).
Qed.

Lemma file_write_run (env : remote) (fname data : string) (w : world) :
  file_write env fname data w =
    match os_write env (trace w) fname data with
    | Some e => (Raise e, World (trace w ++ [EvWrite fname data]) (files w) (consumed w))
    | None =>
        (Ok (Z.of_nat (String.length data)),
         World (trace w ++ [EvWrite fname data])
               (<[fname := default "" (files w !! fname) +:+ data]> (files w))
               (consumed w))
    end.
Proof.
  unfold file_write, bind, ask, emit, lift_err, raise, ret.
  now destruct (os_write env (trace w) fname data).
Qed.

Lemma attempts_app (evs evs' : list event) :
  attempts (evs ++ evs') = attempts evs ++ attempts evs'.
Proof.
  induction evs as [|e evs IH]; [reflexivity|].
  destruct e; simpl; now rewrite ?IH.
Qed.

Lemma attempts_silent (evs : list event) :
  Forall (fun e => silent e = true) evs -> attempts evs = [].
Proof.
  induction 1 as [|e evs He _ IH]; [reflexivity|].
  destruct e; simpl in *; try discriminate; exact IH.
Qed.

Lemma silent_not_completion (evs : list event) :
  Forall (fun e => silent e = true) evs -> Forall (fun e => is_completion e = false) evs.
Proof.
  intros H. eapply Forall_impl; [exact H|]. intros e He.
  destruct e as [| | | |lv msg| | | | | | | | | | |]; try reflexivity.
  destruct lv; [discriminate He | reflexivity | reflexivity].
Qed.

Lemma write_chunks_silent (env : remote) (fname : string) (chunks : list string) :
  forall w, exists evs,
    trace (snd (write_chunks env fname chunks w)) = trace w ++ evs
    /\ Forall (fun e => silent e = true) evs.
Proof.
  induction chunks as [|data rest IH]; intros w.
  - exists []. split; [symmetry; apply app_nil_r | constructor].
  - cbn [write_chunks]. unfold bind at 1. rewrite file_write_run.
    destruct (os_write env (trace w) fname data) as [e|].
    + exists [EvWrite fname data]. split; [reflexivity | repeat constructor].
    + unfold bind at 1, pbar_update at 1, bind at 1, emit at 1.
      cbn [trace files consumed].
      match goal with |- context [write_chunks env fname rest ?w1] =>
        destruct (IH w1) as (evs & Heq & Hs) end.
      exists (EvWrite fname data :: EvPbarUpdate (Z.of_nat (String.length data)) :: evs).
      split; [|repeat constructor; exact Hs].
      rewrite Heq. cbn [trace]. now rewrite <- !app_assoc.
Qed.

Lemma download_single_file_trace (env : remote) (url fname : string) (w : world) :
  exists evs,
    trace (snd (download_single_file env url fname w)) = trace w ++ EvGetStream url :: evs
    /\ Forall (fun e => silent e = true) evs.
Proof.
  unfold download_single_file. unfold bind at 1. rewrite sess_get_stream_run.
  destruct (http_stream env (trace w) url) as [e|resp].
  { exists []. split; [reflexivity | constructor]. }
  unfold bind at 1. rewrite open_wb_run. cbn [trace].
  destruct (os_open_wb env (trace w ++ [EvGetStream url]) fname) as [e|].
  { exists [EvOpen fname]. split; [now rewrite <- app_assoc | repeat constructor]. }
  unfold bind at 1.
  match goal with |- context [write_chunks env fname ?cs ?w1] =>
    destruct (write_chunks_silent env fname cs w1) as (evs & Heq & Hs);
    destruct (write_chunks env fname cs w1) as [[[]|e] w2] end;
    cbn [snd trace] in Heq.
  - exists (EvOpen fname :: evs). split; [|constructor; [reflexivity | exact Hs]].
    destruct (broken resp); cbn [lift_err raise ret snd];
      rewrite Heq; now rewrite <- !app_assoc.
  - exists (EvOpen fname :: evs). split; [|constructor; [reflexivity | exact Hs]].
    cbn [snd]. rewrite Heq. now rewrite <- !app_assoc.
Qed.

(** The [try ... except Exception] block of one file: whatever the
    transfer does, the block ends normally. *)
Lemma transfer_block_ends_normally (env : remote) (url save_path : string)
  (i n : nat) (w : world) :
  exists w' evs,
    try_except
      (emit (EvPbarDesc i n) ;; download_single_file env url save_path)
      (fun e =>
         logging ERROR ("Error happened when downloading file: " +:+ save_path) ;;
         emit (EvLogExn ERROR e)) w = (Ok tt, w')
    /\ trace w' = trace w ++ EvPbarDesc i n :: EvGetStream url :: evs
    /\ Forall (fun e => silent e = true) evs.
Proof.
  unfold try_except, bind at 1, emit at 1.
  match goal with |- context [download_single_file env url save_path ?w1] =>
    destruct (download_single_file_trace env url save_path w1) as (evs & Heq & Hs);
    destruct (download_single_file env url save_path w1) as [[[]|e] w2] end;
    cbn [snd trace] in Heq.
  - exists w2, evs. repeat split; [|exact Hs].
    rewrite Heq. now rewrite <- app_assoc.
  - eexists _, (evs ++ [_; _]). split; [reflexivity|]. split.
    + cbn [trace]. rewrite Heq. rewrite <- !app_assoc. reflexivity.
    + apply Forall_app. split; [exact Hs | repeat constructor].
Qed.

Lemma download_loop_completes (env : remote) (share_key save_dir : string) (n : nat)
  (filelist : list dirent) :
  Forall (fun f => forall h, os_makedirs env h (parent_of save_dir f) = None) filelist ->
  forall i w, exists w' evs,
    download_loop env share_key save_dir n i filelist w = (Ok tt, w')
    /\ trace w' = trace w ++ evs
    /\ attempts evs = map (fun f => file_url share_key (file_path f)) filelist
    /\ Forall (fun e => is_completion e = false) evs.
Proof.
  induction 1 as [|file rest Hmk _ IH]; intros i w.
  - exists w, []. repeat split; [symmetry; apply app_nil_r | constructor].
  - cbn [download_loop]. unfold bind at 1. rewrite makedirs_run.
    fold (parent_of save_dir file). rewrite Hmk.
    unfold bind at 1.
    match goal with |- context [try_except ?m ?h ?w1] =>
      destruct (transfer_block_ends_normally env
                  (file_url share_key (file_path file)) (save_path_of save_dir file)
                  (i + 1) n w1) as (w2 & evs & Hrun & Heq & Hs) end.
    rewrite Hrun.
    destruct (IH (S i) w2) as (w3 & evs' & Hrun' & Heq' & Hatt & Hnc).
    exists w3, (EvMakedirs (parent_of save_dir file) :: EvPbarDesc (i + 1) n
                  :: EvGetStream (file_url share_key (file_path file)) :: evs ++ evs').
    split; [exact Hrun'|]. split; [|split].
    + rewrite Heq', Heq. cbn [trace]. now rewrite <- !app_assoc.
    + cbn [attempts map]. rewrite attempts_app, (attempts_silent _ Hs), Hatt. reflexivity.
    + repeat (constructor; [reflexivity|]).
      apply Forall_app. split; [now apply silent_not_completion | exact Hnc].
Qed.

Lemma download_loop_stops (env : remote) (share_key save_dir : string) (n i : nat)
  (file : dirent) (rest : list dirent) (w : world) (e : exn) :
  os_makedirs env (trace w) (parent_of save_dir file) = Some e ->
  download_loop env share_key save_dir n i (file :: rest) w =
    (Raise e, World (trace w ++ [EvMakedirs (parent_of save_dir file)]) (files w) (consumed w)).
Proof.
  intros H. cbn [download_loop]. unfold bind at 1. rewrite makedirs_run.
  fold (parent_of save_dir file). now rewrite H.
Qed.

Lemma download_loop_app (env : remote) (share_key save_dir : string) (n : nat)
  (l1 l2 : list dirent) :
  forall i w,
    download_loop env share_key save_dir n i (l1 ++ l2) w =
      bind (download_loop env share_key save_dir n i l1)
           (fun _ => download_loop env share_key save_dir n (i + length l1) l2) w.
Proof.
  induction l1 as [|file rest IH]; intros i w.
  - change ([] ++ l2) with l2. cbn [download_loop length].
    unfold bind, ret. now rewrite Nat.add_0_r.
  - change ((file :: rest) ++ l2) with (file :: (rest ++ l2)).
    cbn [download_loop length]. rewrite bind_assoc.
    apply bind_cong. intros _ w1. rewrite bind_assoc.
    apply bind_cong. intros _ w2.
    rewrite IH. now replace (S i + length rest)%nat with (i + S (length rest))%nat by lia.
Qed.

Lemma download_prelude (env : remote) (share_key save_dir : string)
  (filelist : list dirent) (w : world) :
  exists evs,
    Forall (fun e => silent e = true) evs
    /\ download env share_key filelist save_dir w =
       bind (download_loop env share_key save_dir (length filelist) 0 filelist)
            (fun _ => emit EvPbarClose ;; logging INFO "Download finished.")
            (World (trace w ++ evs) (files w) (consumed w)).
Proof.
  unfold download. unfold bind at 1, ask at 1.
  destruct (os_exists env (trace w) save_dir).
  - exists [EvLog WARNING "Save directory already exists. Files will be overwritten.";
            EvPbarOpen (sum_sizes filelist)].
    split; [repeat constructor|].
    unfold bind at 1, logging at 1, emit at 1. unfold bind at 1, emit at 1.
    cbn [trace files consumed]. now rewrite <- app_assoc.
  - exists [EvPbarOpen (sum_sizes filelist)].
    split; [repeat constructor|].
    unfold bind at 1, ret at 1. unfold bind at 1, emit at 1. reflexivity.
Qed.

(** C8 as stated fails: the transfer of the first of three files raises
    and is logged, then the directory of the second file cannot be
    created; [download] ends in that [OSError]: the second and the third
    file are not attempted and there is no completion notice. *)
Lemma transfer_error_then_makedirs_failure :
  http_stream scenario_denied [EvPbarOpen 35; EvMakedirs "/home/user/Downloads/course";
                               EvPbarDesc 1 3]
              (file_url "abc123" "/a.txt")
    = inl (RequestException "connection reset")
  /\ download scenario_denied "abc123"
              [file_entry "/a.txt" 10; file_entry "/sub/b.txt" 20; file_entry "/z.txt" 5]
              "/home/user/Downloads/course" world0 =
     (Raise (OSError "Permission denied"),
      World [EvPbarOpen 35; EvMakedirs "/home/user/Downloads/course";
             EvPbarDesc 1 3;
             EvGetStream "https://cloud.tsinghua.edu.cn/d/abc123/files/?p=/a.txt&dl=1";
             EvLog ERROR
               "Error happened when downloading file: /home/user/Downloads/course/a.txt";
             EvLogExn ERROR (RequestException "connection reset");
             EvMakedirs "/home/user/Downloads/course/sub"] ∅ 0).
Proof. split; reflexivity. Qed.

(** C8, amended. When every directory can be created, [download] attempts
    every file of the manifest, in manifest order, whatever the transfers
    do (each may raise at the request, at the local file or in the
    stream), ends normally, and emits the completion notice once, after
    the last file. *)
Theorem transfer_errors_do_not_stop_the_batch (env : remote)
  (share_key save_dir : string) (filelist : list dirent) (w : world) :
  (forall h path, os_makedirs env h path = None) ->
  exists w' evs,
    download env share_key filelist save_dir w = (Ok tt, w')
    /\ trace w' = trace w ++ evs ++ [EvPbarClose; EvLog INFO "Download finished."]
    /\ attempts evs = map (fun f => file_url share_key (file_path f)) filelist
    /\ Forall (fun e => is_completion e = false) evs.
Proof.
  intros Hmk.
  destruct (download_prelude env share_key save_dir filelist w) as (evs0 & Hs0 & ->).
  match goal with |- context [bind _ _ ?w1] =>
    destruct (download_loop_completes env share_key save_dir (length filelist) filelist
                (proj2 (Forall_forall _ _) (fun f _ h => Hmk h _)) 0%nat w1)
      as (w2 & evs & Hrun & Heq & Hatt & Hnc) end.
  erewrite bind_ok by exact Hrun.
  eexists _, (evs0 ++ evs). split; [reflexivity|]. split; [|split].
  - cbn [trace]. rewrite Heq. cbn [trace]. now rewrite <- !app_assoc.
  - now rewrite attempts_app, (attempts_silent _ Hs0), Hatt.
  - apply Forall_app. split; [now apply silent_not_completion | exact Hnc].
Qed.

Lemma transfer_errors_do_not_stop_the_batch_witness :
  exists w' evs,
    download scenario_d "abc123" [file_entry "/a.txt" 10; file_entry "/sub/b.txt" 20]
             "/home/user/Downloads/course" world0 = (Ok tt, w')
    /\ trace w' = trace world0 ++ evs ++ [EvPbarClose; EvLog INFO "Download finished."]
    /\ attempts evs =
       map (fun f => file_url "abc123" (file_path f))
           [file_entry "/a.txt" 10; file_entry "/sub/b.txt" 20]
    /\ Forall (fun e => is_completion e = false) evs.
Proof.
  apply (transfer_errors_do_not_stop_the_batch scenario_d "abc123"
           "/home/user/Downloads/course"
           [file_entry "/a.txt" 10; file_entry "/sub/b.txt" 20] world0).
  intros h path. reflexivity.
Defined.

(** Scenario D, run: the first transfer fails and is logged, the second
    file is written with the bytes of its body. *)
Example scenario_d_run :
  let '(r, w') :=
    download scenario_d "abc123" [file_entry "/a.txt" 10; file_entry "/sub/b.txt" 20]
             "/home/user/Downloads/course" world0 in
  r = Ok tt
  /\ files w' !! "/home/user/Downloads/course/sub/b.txt" = Some "twenty bytes of data"
  /\ files w' !! "/home/user/Downloads/course/a.txt" = None
  /\ consumed w' = 20
  /\ In (EvLogExn ERROR (RequestException "connection reset")) (trace w').
Proof. vm_compute. repeat split; auto 20. Qed.

(** ** A directory that cannot be created *)

(** C3 as stated fails: the parent directory of the first of two files
    cannot be created; [download] ends in that [OSError] right after the
    [makedirs] call: nothing is logged, the second file is not attempted
    and there is no completion notice. *)
Lemma makedirs_failure_is_not_isolated :
  download scenario_denied "abc123" [file_entry "/sub/b.txt" 20; file_entry "/z.txt" 5]
           "/home/user/Downloads/course" world0 =
    (Raise (OSError "Permission denied"),
     World [EvPbarOpen 25; EvMakedirs "/home/user/Downloads/course/sub"] ∅ 0).
Proof. reflexivity. Qed.

(** C3, amended. If the parent directory of the [i]-th file cannot be
    created (and those of the files before it can), [download] ends in
    the error of [makedirs]: the files before [i] were attempted, the
    [i]-th and the later ones are not, the last event is the failed
    [makedirs] and no completion notice is emitted. *)
Theorem makedirs_failure_aborts_the_batch (env : remote)
  (share_key save_dir : string) (before : list dirent) (file : dirent)
  (after : list dirent) (w : world) (e : exn) :
  Forall (fun f => forall h, os_makedirs env h (parent_of save_dir f) = None) before ->
  (forall h, os_makedirs env h (parent_of save_dir file) = Some e) ->
  exists w' evs,
    download env share_key (before ++ file :: after) save_dir w = (Raise e, w')
    /\ trace w' = trace w ++ evs ++ [EvMakedirs (parent_of save_dir file)]
    /\ attempts evs = map (fun f => file_url share_key (file_path f)) before
    /\ Forall (fun e => is_completion e = false) evs.
Proof.
  intros Hbefore Hfile.
  destruct (download_prelude env share_key save_dir (before ++ file :: after) w)
    as (evs0 & Hs0 & ->).
  match goal with |- context [bind (download_loop _ _ _ ?n _ _) _ ?w1] =>
    destruct (download_loop_completes env share_key save_dir n before Hbefore 0%nat w1)
      as (w2 & evs & Hrun & Heq & Hatt & Hnc) end.
  erewrite bind_raise.
  2:{ rewrite download_loop_app. erewrite bind_ok by exact Hrun.
      apply download_loop_stops, Hfile. }
  eexists _, (evs0 ++ evs). split; [reflexivity|]. split; [|split].
  - cbn [trace]. rewrite Heq. cbn [trace]. now rewrite <- !app_assoc.
  - now rewrite attempts_app, (attempts_silent _ Hs0), Hatt.
  - apply Forall_app. split; [now apply silent_not_completion | exact Hnc].
Qed.

Lemma makedirs_failure_aborts_the_batch_witness :
  exists w' evs,
    download scenario_denied "abc123"
             ([file_entry "/a.txt" 10] ++ file_entry "/sub/b.txt" 20 :: [file_entry "/z.txt" 5])
             "/home/user/Downloads/course" world0
      = (Raise (OSError "Permission denied"), w')
    /\ trace w' = trace world0 ++ evs ++ [EvMakedirs "/home/user/Downloads/course/sub"]
    /\ attempts evs = [file_url "abc123" "/a.txt"]
    /\ Forall (fun e => is_completion e = false) evs.
Proof.
  apply (makedirs_failure_aborts_the_batch scenario_denied "abc123"
           "/home/user/Downloads/course" [file_entry "/a.txt" 10]
           (file_entry "/sub/b.txt" 20) [file_entry "/z.txt" 5] world0
           (OSError "Permission denied")).
  - repeat constructor.
  - intros h. reflexivity.
Defined.

(** ** The transfer of one file *)

Lemma iter_content_fuel_concat (n : nat) :
  (0 < n)%nat ->
  forall fuel b, (String.length b <= fuel)%nat ->
    concat_str (iter_content_fuel fuel n b) = b.
Proof.
  intros Hn. induction fuel as [|fuel IH]; intros b Hlen.
  - destruct b; [reflexivity | simpl in Hlen; lia].
  - destruct b as [|c b]; [reflexivity|].
    change (iter_content_fuel (S fuel) n (String c b))
      with (Py.take_str n (String c b)
              :: iter_content_fuel fuel n (Py.drop_str n (String c b))).
    change (concat_str (?x :: ?l)) with (x +:+ concat_str l).
    rewrite IH; [apply take_drop_str|].
    rewrite length_drop_str. simpl in *. lia.
Qed.

Lemma iter_content_concat (n : nat) (b : string) :
  (0 < n)%nat -> concat_str (iter_content n b) = b.
Proof. intros Hn. apply iter_content_fuel_concat; [exact Hn | reflexivity]. Qed.

Lemma write_chunks_appends (env : remote) (fname : string) :
  (forall h data, os_write env h fname data = None) ->
  forall chunks w old,
    files w !! fname = Some old ->
    exists w',
      write_chunks env fname chunks w = (Ok tt, w')
      /\ files w' !! fname = Some (old +:+ concat_str chunks)
      /\ consumed w' = consumed w + Z.of_nat (String.length (concat_str chunks)).
Proof.
  intros Hwr. induction chunks as [|data rest IH]; intros w old Hold.
  - exists w. cbn [write_chunks concat_str foldr]. unfold ret.
    rewrite app_str_empty_r. repeat split; [exact Hold | simpl; lia].
  - cbn [write_chunks]. unfold bind at 1. rewrite file_write_run, Hwr, Hold.
    cbn [default from_option id].
    unfold bind at 1, pbar_update at 1, bind at 1, emit at 1.
    cbn [trace files consumed].
    match goal with |- context [write_chunks env fname rest ?w1] =>
      destruct (IH w1 (old +:+ data)) as (w' & Hrun & Hfile & Hcons) end.
    { cbn [files]. apply lookup_insert_eq. }
    exists w'. split; [exact Hrun|]. split.
    + rewrite Hfile. change (concat_str (data :: rest)) with (data +:+ concat_str rest).
      now rewrite app_str_assoc.
    + rewrite Hcons. cbn [consumed].
      change (concat_str (data :: rest)) with (data +:+ concat_str rest).
      rewrite length_app_str. lia.
Qed.

(** C4 as stated fails: the service answers 404 with an error page;
    [download_single_file] raises nothing and the error page becomes the
    content of the local file. *)
Lemma error_body_is_saved_as_content :
  http_stream scenario_404 [] (file_url "abc123" "/gone.txt")
    = inr (Response 404 "<h1>Not Found</h1>" None)
  /\ fst (download_single_file scenario_404 (file_url "abc123" "/gone.txt")
                               "/tmp/gone.txt" world0) = Ok tt
  /\ files (snd (download_single_file scenario_404 (file_url "abc123" "/gone.txt")
                                      "/tmp/gone.txt" world0)) !! "/tmp/gone.txt"
     = Some "<h1>Not Found</h1>".
Proof. vm_compute. repeat split. Qed.

(** C4, amended. [download_single_file] never reads the status of the
    response: for every response, whatever its status, when the local
    file can be opened and written and the stream is not cut, the run
    ends normally, the local file holds exactly the bytes of the response
    body and the progress counter has advanced by their number. *)
Theorem status_is_never_read (env : remote) (url fname : string) (w : world)
  (resp : response) :
  http_stream env (trace w) url = inr resp ->
  (forall h, os_open_wb env h fname = None) ->
  (forall h data, os_write env h fname data = None) ->
  broken resp = None ->
  exists w',
    download_single_file env url fname w = (Ok tt, w')
    /\ files w' !! fname = Some (body resp)
    /\ consumed w' = consumed w + Z.of_nat (String.length (body resp)).
Proof.
  intros Hget Hopen Hwrite Hwhole.
  unfold download_single_file.
  erewrite bind_ok by (rewrite sess_get_stream_run, Hget; reflexivity).
  erewrite bind_ok by (rewrite open_wb_run, Hopen; reflexivity).
  match goal with |- context [write_chunks env fname ?cs] =>
    edestruct (write_chunks_appends env fname Hwrite cs) as (w' & Hrun & Hfile & Hcons);
    [| erewrite bind_ok by exact Hrun ] end.
  { cbn [files]. apply lookup_insert_eq. }
  rewrite Hwhole. exists w'. split; [reflexivity|].
  rewrite iter_content_concat in Hfile, Hcons by lia.
  split; [exact Hfile | exact Hcons].
Qed.

Lemma status_is_never_read_witness :
  exists w',
    download_single_file scenario_404 (file_url "abc123" "/gone.txt") "/tmp/gone.txt" world0
      = (Ok tt, w')
    /\ files w' !! "/tmp/gone.txt" = Some (body (Response 404 "<h1>Not Found</h1>" None))
    /\ consumed w' = consumed world0
                     + Z.of_nat (String.length (body (Response 404 "<h1>Not Found</h1>" None))).
Proof.
  apply (status_is_never_read scenario_404 (file_url "abc123" "/gone.txt")
           "/tmp/gone.txt" world0 (Response 404 "<h1>Not Found</h1>" None)).
  - reflexivity.
  - intros h. reflexivity.
  - intros h data. reflexivity.
  - reflexivity.
Defined.

(** ** The default pattern *)

(** C1, at a failing input. The share holds [/Makefile] and [/README]. The
    walker with an absent pattern returns both, but the run without a
    [--pattern] option uses ["*.*"], which neither path matches: the
    manifest is empty and the run ends with "No file found.". *)
Theorem default_pattern_misses_dotless_files :
  is_match "/Makefile" None = true
  /\ is_match "/Makefile" (Some default_pattern) = false
  /\ fst (dfs_search_files scenario_makefile 1000 "abc123" "/" None world0)
     = Ok [file_entry "/Makefile" 120; file_entry "/README" 30]
  /\ fst (dfs_search_files scenario_makefile 1000 "abc123" "/" (Some default_pattern) world0)
     = Ok []
  /\ app scenario_makefile "https://cloud.tsinghua.edu.cn/d/abc123/" None None world0 =
     (Ok tt,
      World [EvLog INFO "Share key: abc123";
             EvGet "https://cloud.tsinghua.edu.cn/d/abc123/";
             EvLog INFO "Searching for files to be downloaded, Wait a moment...";
             EvGet "https://cloud.tsinghua.edu.cn/api/v2.1/share-links/abc123/dirents/?path=/";
             EvLog INFO "No file found."] ∅ 0).
Proof. vm_compute. repeat split. Qed.

(** ** The first character of a path *)

(** C2, at a failing input. [is_match] agrees with the specification's
    matcher on every path that starts with the separator, and an absent
    pattern matches every path; but on a path without a leading separator
    it drops the first character all the same: ["a.txt"] does not match
    the pattern ["a.txt"], and ["xa.txt"] does. *)
Theorem is_match_drops_any_first_character :
  (forall rest pattern,
     is_match (String "/" rest) pattern = match_spec (String "/" rest) pattern)
  /\ (forall path, is_match path None = true)
  /\ is_match "a.txt" (Some "a.txt") = false
  /\ match_spec "a.txt" (Some "a.txt") = true
  /\ is_match "xa.txt" (Some "a.txt") = true
  /\ match_spec "xa.txt" (Some "a.txt") = false.
Proof.
  split; [exact is_match_rooted|]. split; [exact is_match_absent|].
  vm_compute. repeat split.
Qed.

(** ** The download URL *)

(** C5, at a failing input. The walker asks for the listing of [/a&b] with
    the path URL-encoded ([%26]) and finds [/a&b/c.txt]; [download] then
    requests that file with the path as it is, so that the [&] of the path
    ends the [p] parameter of the URL. *)
Theorem download_url_is_not_encoded :
  dfs_search_files scenario_amp 1000 "abc123" "/" None world0 =
    (Ok [file_entry "/a&b/c.txt" 3],
     World [EvGet "https://cloud.tsinghua.edu.cn/api/v2.1/share-links/abc123/dirents/?path=/";
            EvGet "https://cloud.tsinghua.edu.cn/api/v2.1/share-links/abc123/dirents/?path=/a%26b"]
           ∅ 0)
  /\ attempts (trace (snd (download scenario_amp "abc123" [file_entry "/a&b/c.txt" 3]
                                    "/home/user/Downloads/course" world0)))
     = ["https://cloud.tsinghua.edu.cn/d/abc123/files/?p=/a&b/c.txt&dl=1"]
  /\ file_url "abc123" (Urllib.quote "/a&b/c.txt")
     = "https://cloud.tsinghua.edu.cn/d/abc123/files/?p=/a%26b/c.txt&dl=1"
  /\ (forall share_key path,
        file_url share_key path = share_prefix +:+ share_key +:+ "/files/?p=" +:+ path +:+ "&dl=1").
Proof.
  split; [vm_compute; reflexivity|].
  split; [vm_compute; reflexivity|].
  split; [vm_compute; reflexivity|].
  reflexivity.
Qed.

(** ** The bounds of the library models are never reached *)

(** [translate] never runs out of fuel: any bound at least the length of
    the pattern gives the same pieces. *)
Lemma translate_loop_fuel (f1 : nat) :
  forall f2 pat res,
    (length pat <= f1)%nat -> (length pat <= f2)%nat ->
    Fnmatch.translate_loop f1 pat res = Fnmatch.translate_loop f2 pat res.
Proof.
  induction f1 as [|f1 IH]; intros f2 pat res H1 H2.
  - destruct pat; [now destruct f2 | simpl in H1; lia].
  - destruct pat as [|c rest]; [now destruct f2|].
    destruct f2 as [|f2]; [simpl in H2; lia|].
    simpl in H1, H2.
    cbn [Fnmatch.translate_loop].
    destruct (Ascii.eqb c "*").
    { destruct (last res) as [[]|]; apply IH; lia. }
    destruct (Ascii.eqb c "?"); [apply IH; lia|].
    destruct (Ascii.eqb c "["); [|apply IH; lia].
    destruct (Fnmatch.find_close rest) as [j|] eqn:Hj; [|apply IH; lia].
    apply IH; rewrite length_drop; lia.
Qed.

(** [re.findall] never runs out of fuel when the literal before the group
    is not empty. *)
Lemma scan_fuel (p : Re.pattern) (f1 : nat) :
  Re.lead p <> "" ->
  forall f2 text,
    (String.length text <= f1)%nat -> (String.length text <= f2)%nat ->
    Re.scan f1 p text = Re.scan f2 p text.
Proof.
  intros Hlead. induction f1 as [|f1 IH]; intros f2 text H1 H2.
  - destruct text; [now destruct f2 | simpl in H1; lia].
  - destruct text as [|c text]; [now destruct f2|].
    destruct f2 as [|f2]; [simpl in H2; lia|].
    simpl in H1, H2. rewrite !scan_step.
    destruct (String.prefix (Re.lead p) (String c text)) eqn:Hp; [|apply IH; lia].
    cbv zeta.
    destruct (Re.greedy _ _) as [k|]; [|apply IH; lia].
    f_equal.
    assert (Hlen : (String.length
                      (Py.drop_str (k + String.length (Re.trail p))
                         (Py.drop_str (String.length (Re.lead p)) (String c text)))
                    <= String.length text)%nat).
    { rewrite !length_drop_str. simpl.
      destruct (Re.lead p) as [|a l]; [contradiction | simpl; lia]. }
    apply IH; lia.
Qed.

(** ** The file table *)

Example filelist_lines_two :
  filelist_lines [file_entry "/a.txt" 10; file_entry "/sub/b.txt" 1250] =
    [repeat_char "=" 100;
     "Last Modified Time           File Size   File Path";
     repeat_char "-" 100;
     "2024-01-01T00:00:00+08:00           10   /a.txt";
     "2024-01-01T00:00:00+08:00         1250   /sub/b.txt";
     repeat_char "-" 100].
Proof. reflexivity. Qed.

Lemma entry_lines_cut (total : nat) (filelist : list dirent) :
  forall i, (1 <= i <= 100)%nat ->
    entry_lines i total filelist =
      if (length filelist <? 101 - i)%nat then map entry_line filelist
      else map entry_line (take (101 - i) filelist)
             ++ ["... " +:+ str_of_int (Z.of_nat total - 100) +:+ " more files"].
Proof.
  induction filelist as [|file rest IH]; intros i Hi.
  - cbn [entry_lines length map]. destruct (0 <? 101 - i)%nat eqn:H; [reflexivity|].
    apply Nat.ltb_ge in H. lia.
  - cbn [entry_lines length].
    destruct (Nat.eqb_spec i 100) as [->|Hne].
    + destruct rest; reflexivity.
    + rewrite IH by lia.
      replace (101 - i)%nat with (S (101 - S i)) by lia.
      change (S (length rest) <? S (101 - S i))%nat with (length rest <? 101 - S i)%nat.
      destruct (length rest <? 101 - S i)%nat; reflexivity.
Qed.

Lemma emit_lines_run (lines : list string) (w : world) :
  foldr (fun line rest => emit (EvPrint line) ;; rest) (ret tt) lines w =
    (Ok tt, World (trace w ++ map EvPrint lines) (files w) (consumed w)).
Proof.
  revert w. induction lines as [|line lines IH]; intros w.
  - cbn [foldr map]. unfold ret. rewrite app_nil_r. now destruct w.
  - cbn [foldr map]. unfold bind at 1, emit at 1. rewrite IH. cbn [trace files consumed].
    now rewrite <- app_assoc.
Qed.

(** X1. [print_filelist] prints a rule, the header, a rule, the entries
    and a rule, and changes nothing else.  Fewer than 100 files are all
    listed; from 100 files on only the first 100 are, followed by the line
    "... N more files" with N the number of files left out, which is 0
    for exactly 100 files. *)
Theorem print_filelist_lists_at_most_100 (filelist : list dirent) (w : world) :
  exists entries,
    print_filelist filelist w =
      (Ok tt,
       World (trace w ++ map EvPrint
                ([repeat_char "=" 100;
                  "Last Modified Time           File Size   File Path";
                  repeat_char "-" 100] ++ entries ++ [repeat_char "-" 100]))
             (files w) (consumed w))
    /\ ((length filelist < 100)%nat -> entries = map entry_line filelist)
    /\ ((100 <= length filelist)%nat ->
        entries = map entry_line (take 100 filelist)
                    ++ ["... " +:+ str_of_int (Z.of_nat (length filelist) - 100)
                        +:+ " more files"]).
Proof.
  exists (entry_lines 1 (length filelist) filelist). split; [|split].
  - unfold print_filelist. rewrite emit_lines_run. reflexivity.
  - intros H. rewrite entry_lines_cut by lia.
    change (101 - 1)%nat with 100%nat.
    destruct (Nat.ltb_spec (length filelist) 100); [reflexivity | lia].
  - intros H. rewrite entry_lines_cut by lia.
    change (101 - 1)%nat with 100%nat.
    destruct (Nat.ltb_spec (length filelist) 100); [lia | reflexivity].
Qed.

Lemma print_filelist_lists_at_most_100_witness :
  exists entries,
    fst (print_filelist (replicate 100 (file_entry "/a.txt" 10)) world0) = Ok tt
    /\ entries = map entry_line (take 100 (replicate 100 (file_entry "/a.txt" 10)))
                   ++ ["... 0 more files"]
    /\ printed (trace (snd (print_filelist [file_entry "/a.txt" 10] world0)))
       = [repeat_char "=" 100;
          "Last Modified Time           File Size   File Path";
          repeat_char "-" 100;
          "2024-01-01T00:00:00+08:00           10   /a.txt";
          repeat_char "-" 100].
Proof.
  destruct (print_filelist_lists_at_most_100 (replicate 100 (file_entry "/a.txt" 10)) world0)
    as (entries & Hrun & _ & Hmany).
  destruct (print_filelist_lists_at_most_100 [file_entry "/a.txt" 10] world0)
    as (one & Hone & Hfew & _).
  exists entries. split; [now rewrite Hrun|]. split.
  - apply Hmany. vm_compute. lia.
  - rewrite Hone, Hfew by (simpl; lia). reflexivity.
Defined.

(** ** What a pattern selects *)

Lemma match_star_nil (ps : list Fnmatch.piece) :
  Fnmatch.match_pieces (Fnmatch.PStar :: ps) [] = Fnmatch.match_pieces ps [].
Proof. cbn. apply orb_false_r. Qed.

Lemma match_star_cons (ps : list Fnmatch.piece) (x : ascii) (name : list ascii) :
  Fnmatch.match_pieces (Fnmatch.PStar :: ps) (x :: name) =
    Fnmatch.match_pieces ps (x :: name) || Fnmatch.match_pieces (Fnmatch.PStar :: ps) name.
Proof. reflexivity. Qed.

Lemma match_star_alone (name : list ascii) :
  Fnmatch.match_pieces [Fnmatch.PStar] name = true.
Proof.
  induction name as [|x name IH]; [reflexivity|].
  rewrite match_star_cons, IH. apply orb_true_r.
Qed.

Lemma match_star_dot_star (s : string) :
  Fnmatch.match_pieces [Fnmatch.PStar; Fnmatch.PLit "."; Fnmatch.PStar]
                       (String.list_ascii_of_string s)
  = Py.has_char "." s.
Proof.
  induction s as [|c s IH]; [reflexivity|].
  cbn [String.list_ascii_of_string Py.has_char].
  rewrite match_star_cons, IH.
  cbn [Fnmatch.match_pieces Fnmatch.piece_matches].
  rewrite match_star_alone, andb_true_r.
  now rewrite (Ascii.eqb_sym "." c).
Qed.

(** X2. What the two everyday patterns select.  The pattern ["*"] selects
    every path.  The default pattern ["*.*"] of [main] selects exactly the
    paths that hold a dot after their first character: a file without a
    dot in its path is never part of a run that gives no [--pattern]. *)
Theorem patterns_star_and_default (path : string) :
  is_match path (Some "*") = true
  /\ is_match path (Some default_pattern) = Py.has_char "." (Py.drop_str 1 path).
Proof.
  split.
  - unfold is_match, Fnmatch.fnmatch.
    change (Fnmatch.translate "*") with [Fnmatch.PStar]. apply match_star_alone.
  - unfold is_match, Fnmatch.fnmatch.
    change (Fnmatch.translate default_pattern)
      with [Fnmatch.PStar; Fnmatch.PLit "."; Fnmatch.PStar].
    apply match_star_dot_star.
Qed.

(** ** The share key and the page URL *)

Lemma remove_char_app (c : ascii) (s t : string) :
  Py.remove_char c (s +:+ t) = Py.remove_char c s +:+ Py.remove_char c t.
Proof.
  induction s as [|d s IH]; [reflexivity|].
  rewrite app_str_cons. cbn [Py.remove_char].
  destruct (Ascii.eqb d c); [exact IH | now rewrite app_str_cons, IH].
Qed.

Lemma remove_char_absent (c : ascii) (s : string) :
  Py.has_char c s = false -> Py.remove_char c s = s.
Proof.
  induction s as [|d s IH]; [reflexivity|].
  cbn [Py.has_char Py.remove_char]. intros H.
  apply orb_false_iff in H as [-> H]. now rewrite IH.
Qed.

(** X3. The key [get_share_key] returns holds no slash, and the page URL
    the program builds from it is again a share link with that very key:
    parsing, building the URL and parsing again gives the same key. *)
Theorem share_key_round_trip (suffix : string) (w w' : world) :
  let share_key := without_slashes suffix in
  fst (get_share_key (share_prefix +:+ suffix) w) = Ok share_key
  /\ Py.has_char "/" share_key = false
  /\ fst (get_share_key (page_url share_key) w') = Ok share_key.
Proof.
  intros share_key. split; [|split].
  - now rewrite get_share_key_prefixed.
  - apply without_slashes_no_slash.
  - unfold page_url. rewrite get_share_key_prefixed.
    rewrite <- remove_char_without_slashes, remove_char_app.
    rewrite (remove_char_absent "/" share_key) by apply without_slashes_no_slash.
    cbn [fst]. f_equal. apply app_str_empty_r.
Qed.

(** ** The password challenge *)

(** X4. On a public share (the page carries no anti-forgery token)
    [verify_password] is one page request and nothing more: the operator
    is not asked for a password and no form is posted. *)
Theorem public_share_needs_no_password (env : remote) (share_key : string)
  (w : world) (text : string) :
  http_text env (trace w) (page_url share_key) = inr text ->
  Re.findall csrf_pattern text = Some [] ->
  verify_password env share_key w =
    (Ok tt, World (trace w ++ [EvGet (page_url share_key)]) (files w) (consumed w)).
Proof.
  intros Hpage Htok. unfold verify_password.
  erewrite bind_ok by (rewrite sess_get_text_run, Hpage; reflexivity).
  rewrite Htok. reflexivity.
Qed.

Lemma public_share_needs_no_password_witness :
  verify_password scenario_a "abc123" world0 =
    (Ok tt, World [EvGet "https://cloud.tsinghua.edu.cn/d/abc123/"] ∅ 0).
Proof.
  apply (public_share_needs_no_password scenario_a "abc123" world0 public_page);
    reflexivity.
Defined.

(** X5. On a password-protected share whose reply does not hold the text
    "Please enter a correct password", [verify_password] ends normally
    after one prompt and one form: the form goes to the page URL with the
    page as referrer and carries the first token found on the page, the
    share key and the password the operator typed. *)
Theorem accepted_password_posts_one_form (env : remote) (share_key : string)
  (w : world) (text token reply : string) (more : list string) :
  http_text env (trace w) (page_url share_key) = inr text ->
  Re.findall csrf_pattern text = Some (token :: more) ->
  (forall h data referer, http_post env h (page_url share_key) data referer = inr reply) ->
  Py.contains "Please enter a correct password" reply = false ->
  verify_password env share_key w =
    (Ok tt,
     World (trace w ++
              [EvGet (page_url share_key);
               EvInput "Please enter the password: ";
               EvPost (page_url share_key)
                      [("csrfmiddlewaretoken", token); ("token", share_key);
                       ("password",
                        stdin_line env (trace w ++ [EvGet (page_url share_key)])
                                   "Please enter the password: ")]
                      (page_url share_key)])
           (files w) (consumed w)).
Proof.
  intros Hpage Htok Hpost Hacc.
  unfold verify_password.
  erewrite bind_ok by (rewrite sess_get_text_run, Hpage; reflexivity).
  rewrite Htok. cbn [from_option id].
  erewrite bind_ok by apply input_run.
  erewrite bind_ok by (rewrite sess_post_text_run, Hpost; reflexivity).
  rewrite Hacc. unfold ret. cbn [trace files consumed].
  now rewrite <- !app_assoc.
Qed.

Lemma accepted_password_posts_one_form_witness :
  verify_password locked_right "abc123" world0 =
    (Ok tt,
     World [EvGet "https://cloud.tsinghua.edu.cn/d/abc123/";
            EvInput "Please enter the password: ";
            EvPost "https://cloud.tsinghua.edu.cn/d/abc123/"
                   [("csrfmiddlewaretoken", "tok42"); ("token", "abc123");
                    ("password", "secret")]
                   "https://cloud.tsinghua.edu.cn/d/abc123/"] ∅ 0).
Proof.
  apply (accepted_password_posts_one_form locked_right "abc123" world0 locked_page
           "tok42" "<html>files</html>" []); reflexivity.
Defined.

(** ** What the walker touches *)

Lemma confined_ret {A} (allowed : event -> Prop) (a : A) (w : world) :
  confined_at allowed (ret a) w.
Proof.
  repeat split. exists []. split; [symmetry; apply app_nil_r | constructor].
Qed.

Lemma confined_raise {A} (allowed : event -> Prop) (e : exn) (w : world) :
  confined_at allowed (raise (A:=A) e) w.
Proof.
  repeat split. exists []. split; [symmetry; apply app_nil_r | constructor].
Qed.

Lemma confined_emit (allowed : event -> Prop) (e : event) (w : world) :
  allowed e -> confined_at allowed (emit e) w.
Proof.
  intros H. repeat split. exists [e]. split; [reflexivity | now constructor].
Qed.

Lemma confined_bind {A B} (allowed : event -> Prop) (m : M A) (k : A -> M B) (w : world) :
  confined_at allowed m w ->
  (forall a w', m w = (Ok a, w') -> confined_at allowed (k a) w') ->
  confined_at allowed (bind m k) w.
Proof.
  intros (Hf & Hc & evs & Ht & Ha) Hk. unfold confined_at, bind.
  destruct (m w) as [[a|e] w1] eqn:Hm; cbn [snd] in *.
  - destruct (Hk a w1 eq_refl) as (Hf' & Hc' & evs' & Ht' & Ha').
    split; [congruence|]. split; [congruence|].
    exists (evs ++ evs'). split; [|now apply Forall_app].
    rewrite Ht', Ht. now rewrite <- app_assoc.
  - split; [exact Hf|]. split; [exact Hc|]. now exists evs.
Qed.

Lemma confined_mono {A} (allowed allowed' : event -> Prop) (m : M A) (w : world) :
  (forall e, allowed e -> allowed' e) ->
  confined_at allowed m w -> confined_at allowed' m w.
Proof.
  intros Himp (Hf & Hc & evs & Ht & Ha). split; [exact Hf|]. split; [exact Hc|].
  exists evs. split; [exact Ht|]. eapply Forall_impl; [exact Ha | exact Himp].
Qed.

Lemma sess_get_dirents_run (env : remote) (url : string) (w : world) :
  sess_get_dirents env url w =
    (match http_dirents env (trace w) url with inl e => Raise e | inr l => Ok l end,
     World (trace w ++ [EvGet url]) (files w) (consumed w)).
Proof.
  unfold sess_get_dirents, bind, ask, emit, lift_sum, raise, ret.
  now destruct (http_dirents env (trace w) url).
Qed.

Lemma dfs_loop_confined (allowed : event -> Prop) (recurse : string -> M (list dirent))
  (pattern : option string) :
  (forall folder w, confined_at allowed (recurse folder) w) ->
  forall objects filelist w,
    confined_at allowed (dfs_loop recurse pattern objects filelist) w.
Proof.
  intros Hrec objects. induction objects as [|obj rest IH]; intros filelist w.
  - apply confined_ret.
  - cbn [dfs_loop]. destruct (is_dir obj).
    + apply confined_bind; [apply Hrec | intros; apply IH].
    + destruct (is_match (file_path obj) pattern); apply IH.
Qed.

Lemma dfs_search_files_confined (env : remote) (share_key : string)
  (pattern : option string) (depth : nat) :
  forall path w,
    confined_at (is_listing_of share_key)
                (dfs_search_files env depth share_key path pattern) w.
Proof.
  induction depth as [|depth IH]; intros path w.
  - apply confined_raise.
  - cbn [dfs_search_files]. apply confined_bind.
    + unfold confined_at. rewrite sess_get_dirents_run. repeat split.
      eexists [_]. split; [reflexivity|]. constructor; [|constructor]. now exists path.
    + intros objects w' _. apply dfs_loop_confined. intros folder w2. apply IH.
Qed.

(** X6. The walker only lists.  Whatever the service answers and however
    the walk ends, [dfs_search_files] leaves the local files and the
    progress counter untouched, and every event it adds is a listing
    request for a URL-encoded folder path of the same share; the first one
    is for the start path. *)
Theorem walker_only_lists (env : remote) (depth : nat) (share_key path : string)
  (pattern : option string) (w : world) :
  let w' := snd (dfs_search_files env (S depth) share_key path pattern w) in
  files w' = files w
  /\ consumed w' = consumed w
  /\ exists evs,
       trace w' = trace w ++ EvGet (dirents_url share_key (Urllib.quote path)) :: evs
       /\ Forall (is_listing_of share_key) evs.
Proof.
  cbn zeta.
  destruct (dfs_search_files_confined env share_key pattern (S depth) path w)
    as (Hf & Hc & _).
  split; [exact Hf|]. split; [exact Hc|].
  cbn [dfs_search_files]. unfold bind at 1. rewrite sess_get_dirents_run.
  destruct (http_dirents env (trace w) _) as [e|objects].
  - exists []. split; [reflexivity | constructor].
  - match goal with |- context [dfs_loop ?r pattern objects [] ?w1] =>
      destruct (dfs_loop_confined (is_listing_of share_key) r pattern
                  (fun folder w2 => dfs_search_files_confined env share_key pattern
                                      depth folder w2) objects [] w1)
        as (_ & _ & evs & Ht & Ha) end.
    exists evs. split; [|exact Ha]. rewrite Ht. cbn [trace]. now rewrite <- app_assoc.
Qed.

(** ** What the walker returns *)

Lemma dfs_loop_flat (recurse : string -> M (list dirent)) (pattern : option string)
  (objects : list dirent) :
  Forall (fun o => is_dir o = false) objects ->
  forall filelist w,
    dfs_loop recurse pattern objects filelist w =
      (Ok (filelist ++ List.filter (fun o => is_match (file_path o) pattern) objects), w).
Proof.
  induction 1 as [|obj rest Hobj _ IH]; intros filelist w.
  - cbn [dfs_loop List.filter]. unfold ret. now rewrite app_nil_r.
  - cbn [dfs_loop List.filter]. rewrite Hobj.
    destruct (is_match (file_path obj) pattern).
    + rewrite IH. now rewrite <- app_assoc.
    + apply IH.
Qed.

(** X7. A folder that holds only files costs one listing request, and the
    walker returns the files of the listing that pass [is_match], in the
    order of the listing. *)
Theorem flat_folder_is_filtered_in_order (env : remote) (depth : nat)
  (share_key path : string) (pattern : option string) (w : world)
  (objects : list dirent) :
  http_dirents env (trace w) (dirents_url share_key (Urllib.quote path)) = inr objects ->
  Forall (fun o => is_dir o = false) objects ->
  dfs_search_files env (S depth) share_key path pattern w =
    (Ok (List.filter (fun o => is_match (file_path o) pattern) objects),
     World (trace w ++ [EvGet (dirents_url share_key (Urllib.quote path))])
           (files w) (consumed w)).
Proof.
  intros Hlist Hflat. cbn [dfs_search_files].
  erewrite bind_ok by (rewrite sess_get_dirents_run, Hlist; reflexivity).
  now rewrite dfs_loop_flat.
Qed.

Lemma flat_folder_is_filtered_in_order_witness :
  dfs_search_files scenario_makefile 1 "abc123" "/" (Some "M*") world0 =
    (Ok [file_entry "/Makefile" 120],
     World [EvGet "https://cloud.tsinghua.edu.cn/api/v2.1/share-links/abc123/dirents/?path=/"]
           ∅ 0).
Proof.
  apply (flat_folder_is_filtered_in_order scenario_makefile 0 "abc123" "/" (Some "M*")
           world0 [file_entry "/Makefile" 120; file_entry "/README" 30]).
  - reflexivity.
  - repeat constructor.
Defined.

Lemma dfs_loop_keeps (recurse : string -> M (list dirent)) (pattern : option string)
  (objects : list dirent) :
  forall filelist w l w',
    dfs_loop recurse pattern objects filelist w = (Ok l, w') ->
    (forall x, In x filelist -> In x l)
    /\ (forall o, In o objects -> is_dir o = false ->
                  is_match (file_path o) pattern = true -> In o l).
Proof.
  induction objects as [|obj rest IH]; intros filelist w l w' Hrun.
  - injection Hrun as <- _. split; [auto | intros o []].
  - cbn [dfs_loop] in Hrun. destruct (is_dir obj) eqn:Hdir.
    + unfold bind in Hrun.
      destruct (recurse (folder_path obj) w) as [[found|e] w1]; [|discriminate].
      destruct (IH _ _ _ _ Hrun) as [Hacc Hobjs]. split.
      * intros x Hx. apply Hacc, in_or_app. now left.
      * intros o [<-|Ho] Hd Hm; [congruence | now apply Hobjs].
    + destruct (is_match (file_path obj) pattern) eqn:Hmatch.
      * destruct (IH _ _ _ _ Hrun) as [Hacc Hobjs]. split.
        -- intros x Hx. apply Hacc, in_or_app. now left.
        -- intros o [<-|Ho] Hd Hm; [|now apply Hobjs].
           apply Hacc, in_or_app. right. now left.
      * destruct (IH _ _ _ _ Hrun) as [Hacc Hobjs]. split; [exact Hacc|].
        intros o [<-|Ho] Hd Hm; [congruence | now apply Hobjs].
Qed.

(** X8. The walker drops no matching file of the folder it lists: when
    the walk returns, every file entry of the start folder's listing that
    passes [is_match] is in the result, and with an absent pattern every
    file entry of that listing is. *)
Theorem walker_keeps_matching_files (env : remote) (depth : nat)
  (share_key path : string) (pattern : option string) (w w' : world)
  (objects manifest : list dirent) :
  http_dirents env (trace w) (dirents_url share_key (Urllib.quote path)) = inr objects ->
  dfs_search_files env (S depth) share_key path pattern w = (Ok manifest, w') ->
  (forall o, In o objects -> is_dir o = false ->
             is_match (file_path o) pattern = true -> In o manifest)
  /\ (pattern = None -> forall o, In o objects -> is_dir o = false -> In o manifest).
Proof.
  intros Hlist Hrun. cbn [dfs_search_files] in Hrun.
  erewrite bind_ok in Hrun by (rewrite sess_get_dirents_run, Hlist; reflexivity).
  apply dfs_loop_keeps in Hrun as [_ Hobjs]. split; [exact Hobjs|].
  intros -> o Ho Hd. now apply Hobjs.
Qed.

Lemma walker_keeps_matching_files_witness :
  (forall o, In o [file_entry "/a.txt" 10; dir_entry "/sub"; file_entry "/notes.md" 5] ->
             is_dir o = false -> is_match (file_path o) (Some "*.txt") = true ->
             In o [file_entry "/a.txt" 10; file_entry "/sub/b.txt" 20])
  /\ (Some "*.txt" = None ->
      forall o, In o [file_entry "/a.txt" 10; dir_entry "/sub"; file_entry "/notes.md" 5] ->
                is_dir o = false -> In o [file_entry "/a.txt" 10; file_entry "/sub/b.txt" 20]).
Proof.
  eapply (walker_keeps_matching_files scenario_a 2 "abc123" "/" (Some "*.txt") world0);
    reflexivity.
Defined.

Lemma dfs_loop_stops (recurse : string -> M (list dirent)) (pattern : option string)
  (before : list dirent) (sub : dirent) (after : list dirent) (e : exn) (w w' : world) :
  Forall (fun o => is_dir o = false) before ->
  is_dir sub = true ->
  recurse (folder_path sub) w = (Raise e, w') ->
  forall filelist,
    dfs_loop recurse pattern (before ++ sub :: after) filelist w = (Raise e, w').
Proof.
  intros Hflat Hsub Hfail.
  induction Hflat as [|obj rest Hobj _ IH]; intros filelist.
  - change ([] ++ sub :: after) with (sub :: after).
    cbn [dfs_loop]. rewrite Hsub. now apply bind_raise.
  - change ((obj :: rest) ++ sub :: after) with (obj :: (rest ++ sub :: after)).
    cbn [dfs_loop]. rewrite Hobj.
    destruct (is_match (file_path obj) pattern); apply IH.
Qed.

Lemma stops_at_failure_silent {A} (env : remote) (m : M A) (w : world) :
  trace (snd (m w)) = trace w -> stops_at_failure env m w.
Proof.
  intros Ht. exists []. split; [now rewrite app_nil_r|].
  intros before url after e Hsplit. now destruct before.
Qed.

Lemma stops_at_failure_listing (env : remote) (url : string) (w : world) :
  stops_at_failure env (sess_get_dirents env url) w.
Proof.
  exists [EvGet url]. rewrite sess_get_dirents_run. split; [reflexivity|].
  intros before url' after e Hsplit Hfail.
  destruct before as [|x [|y before]]; [|discriminate Hsplit..].
  injection Hsplit as <- <-. rewrite app_nil_r in Hfail. now rewrite Hfail.
Qed.

Lemma stops_at_failure_bind {A B} (env : remote) (m : M A) (k : A -> M B) (w : world) :
  stops_at_failure env m w ->
  (forall a w1, m w = (Ok a, w1) -> stops_at_failure env (k a) w1) ->
  stops_at_failure env (bind m k) w.
Proof.
  intros (evsm & Htm & Hm) Hk. unfold stops_at_failure, bind.
  destruct (m w) as [[a|e0] w1] eqn:Hrun; cbn [fst snd] in *.
  - destruct (Hk a w1 eq_refl) as (evsk & Htk & Hkk).
    exists (evsm ++ evsk). split; [rewrite Htk, Htm; now rewrite <- app_assoc|].
    intros before url after e Hsplit Hfail.
    symmetry in Hsplit. apply app_eq_app in Hsplit as [l [[-> ->]|[-> Hl]]].
    + apply (Hkk l url after e eq_refl).
      rewrite Htm. now rewrite <- app_assoc.
    + destruct l as [|x l].
      * cbn [app] in Hl.
        apply (Hkk [] url after e (eq_sym Hl)).
        rewrite Htm. now rewrite !app_nil_r.
      * injection Hl as <- ->.
        now destruct (Hm before url l e eq_refl Hfail) as [_ ?].
  - exists evsm. split; [exact Htm|].
    intros before url after e Hsplit Hfail.
    destruct (Hm before url after e Hsplit Hfail) as [-> [= ->]]. now split.
Qed.

Lemma dfs_loop_stops_at_failure (env : remote) (recurse : string -> M (list dirent))
  (pattern : option string) :
  (forall folder w, stops_at_failure env (recurse folder) w) ->
  forall objects filelist w,
    stops_at_failure env (dfs_loop recurse pattern objects filelist) w.
Proof.
  intros Hrec objects. induction objects as [|obj rest IH]; intros filelist w.
  - now apply stops_at_failure_silent.
  - cbn [dfs_loop]. destruct (is_dir obj).
    + apply stops_at_failure_bind; [apply Hrec | intros; apply IH].
    + destruct (is_match (file_path obj) pattern); apply IH.
Qed.

Lemma dfs_search_files_stops_at_failure (env : remote) (share_key : string)
  (pattern : option string) (depth : nat) :
  forall path w,
    stops_at_failure env (dfs_search_files env depth share_key path pattern) w.
Proof.
  induction depth as [|depth IH]; intros path w.
  - now apply stops_at_failure_silent.
  - cbn [dfs_search_files]. apply stops_at_failure_bind.
    + apply stops_at_failure_listing.
    + intros objects w1 _. apply dfs_loop_stops_at_failure. intros folder w2. apply IH.
Qed.

(** X9. A listing that fails ends the whole walk in that error, wherever
    in the tree it happens.  Take any request the walker sent, at any
    nesting level and after any number of folders: if the service
    answered it with an error, that request is the last thing the walk
    did and the walk ended in that error; so a walk that returns a list
    had every one of its listings answered, and no partial list is ever
    returned. *)
Theorem listing_error_ends_the_walk (env : remote) (depth : nat)
  (share_key path : string) (pattern : option string) (w : world) :
  exists evs,
    trace (snd (dfs_search_files env depth share_key path pattern w)) = trace w ++ evs
    /\ forall before url after e,
         evs = before ++ EvGet url :: after ->
         http_dirents env (trace w ++ before) url = inl e ->
         after = []
         /\ fst (dfs_search_files env depth share_key path pattern w) = Raise e.
Proof. apply dfs_search_files_stops_at_failure. Qed.

Lemma listing_error_ends_the_walk_witness :
  fst (dfs_search_files scenario_deep 5 "abc123" "/" None world0)
    = Raise (KeyError "dirent_list").
Proof.
  destruct (listing_error_ends_the_walk scenario_deep 5 "abc123" "/" None world0)
    as (evs & Ht & Hstop).
  vm_compute in Ht. subst evs.
  refine (proj2 (Hstop
    [EvGet "https://cloud.tsinghua.edu.cn/api/v2.1/share-links/abc123/dirents/?path=/";
     EvGet "https://cloud.tsinghua.edu.cn/api/v2.1/share-links/abc123/dirents/?path=/one";
     EvGet "https://cloud.tsinghua.edu.cn/api/v2.1/share-links/abc123/dirents/?path=/two"]
    "https://cloud.tsinghua.edu.cn/api/v2.1/share-links/abc123/dirents/?path=/two/deep"
    [] (KeyError "dirent_list") _ _)); reflexivity.
Defined.

(** The same at the first levels, with the exact run: the failure of the
    start folder's listing, and the failure of the first subfolder's
    listing after any files. *)
Lemma listing_error_near_the_start (env : remote) (depth : nat)
  (share_key path : string) (pattern : option string) (w : world) (e : exn) :
  (http_dirents env (trace w) (dirents_url share_key (Urllib.quote path)) = inl e ->
   dfs_search_files env (S depth) share_key path pattern w =
     (Raise e,
      World (trace w ++ [EvGet (dirents_url share_key (Urllib.quote path))])
            (files w) (consumed w)))
  /\ (forall before sub after,
        http_dirents env (trace w) (dirents_url share_key (Urllib.quote path))
          = inr (before ++ sub :: after) ->
        Forall (fun o => is_dir o = false) before ->
        is_dir sub = true ->
        (forall h, http_dirents env h
                     (dirents_url share_key (Urllib.quote (folder_path sub))) = inl e) ->
        dfs_search_files env (S (S depth)) share_key path pattern w =
          (Raise e,
           World (trace w ++
                    [EvGet (dirents_url share_key (Urllib.quote path));
                     EvGet (dirents_url share_key (Urllib.quote (folder_path sub)))])
                 (files w) (consumed w))).
Proof.
  split.
  - intros Hlist. cbn [dfs_search_files].
    erewrite bind_raise by (rewrite sess_get_dirents_run, Hlist; reflexivity).
    reflexivity.
  - intros before sub after Hlist Hflat Hsub Hfail.
    cbn [dfs_search_files].
    erewrite bind_ok by (rewrite sess_get_dirents_run, Hlist; reflexivity).
    erewrite dfs_loop_stops; [reflexivity | exact Hflat | exact Hsub |].
    cbn [dfs_search_files].
    erewrite bind_raise by (rewrite sess_get_dirents_run, Hfail; reflexivity).
    cbn [trace files consumed]. now rewrite <- app_assoc.
Qed.

Example listing_error_near_the_start_run :
  dfs_search_files scenario_private 1 "nokey" "/" None world0 =
    (Raise (KeyError "dirent_list"),
     World [EvGet "https://cloud.tsinghua.edu.cn/api/v2.1/share-links/nokey/dirents/?path=/"]
           ∅ 0)
  /\ dfs_search_files scenario_private 2 "abc123" "/" None world0 =
    (Raise (KeyError "dirent_list"),
     World [EvGet "https://cloud.tsinghua.edu.cn/api/v2.1/share-links/abc123/dirents/?path=/";
            EvGet "https://cloud.tsinghua.edu.cn/api/v2.1/share-links/abc123/dirents/?path=/private"]
           ∅ 0).
Proof.
  split.
  - apply (listing_error_near_the_start scenario_private 0 "nokey" "/" None world0
             (KeyError "dirent_list")).
    reflexivity.
  - apply (proj2 (listing_error_near_the_start scenario_private 0 "abc123" "/" None world0
                    (KeyError "dirent_list"))
             [file_entry "/a.txt" 10] (dir_entry "/private") [file_entry "/z.txt" 5]).
    + reflexivity.
    + repeat constructor.
    + reflexivity.
    + intros h. reflexivity.
Qed.

Lemma endless_walk (env : remote) (share_key : string) (pattern : option string)
  (sub : dirent) :
  is_dir sub = true ->
  (forall h url, http_dirents env h url = inr [sub]) ->
  forall depth path w,
  exists evs,
    dfs_search_files env depth share_key path pattern w =
      (Raise RecursionError, World (trace w ++ evs) (files w) (consumed w))
    /\ length evs = depth
    /\ Forall (is_listing_of share_key) evs.
Proof.
  intros Hsub Hlist. induction depth as [|depth IH]; intros path w.
  - exists []. split; [|split; [reflexivity | constructor]].
    cbn [dfs_search_files]. unfold raise. rewrite app_nil_r. now destruct w.
  - cbn [dfs_search_files].
    erewrite bind_ok by (rewrite sess_get_dirents_run, Hlist; reflexivity).
    cbn [dfs_loop]. rewrite Hsub.
    match goal with |- context [dfs_search_files env depth share_key ?p pattern] =>
      match goal with |- context [bind _ _ ?w1] =>
        destruct (IH p w1) as (evs & Hrun & Hlen & Hall) end end.
    erewrite bind_raise by exact Hrun.
    exists (EvGet (dirents_url share_key (Urllib.quote path)) :: evs).
    split; [|split].
    + cbn [trace files consumed]. now rewrite <- app_assoc.
    + cbn [length]. now rewrite Hlen.
    + constructor; [now exists path | exact Hall].
Qed.

(** X10. The walker has no guard against a tree without end.  When every
    listing answers with one folder (a folder that holds itself, say), the
    walk never returns a list: it sends one listing request per nesting
    level until the interpreter's recursion limit is used up and ends in
    [RecursionError]. *)
Theorem endless_tree_ends_in_recursion_error (env : remote) (depth : nat)
  (share_key path : string) (pattern : option string) (w : world) (sub : dirent) :
  is_dir sub = true ->
  (forall h url, http_dirents env h url = inr [sub]) ->
  exists evs,
    dfs_search_files env depth share_key path pattern w =
      (Raise RecursionError, World (trace w ++ evs) (files w) (consumed w))
    /\ length evs = depth
    /\ Forall (is_listing_of share_key) evs.
Proof. intros Hsub Hlist. now apply (endless_walk env share_key pattern sub). Qed.

Lemma endless_tree_ends_in_recursion_error_witness :
  exists evs,
    dfs_search_files endless 3 "abc123" "/" None world0 =
      (Raise RecursionError, World (trace world0 ++ evs) (files world0) (consumed world0))
    /\ length evs = 3%nat
    /\ Forall (is_listing_of "abc123") evs.
Proof.
  apply (endless_tree_ends_in_recursion_error endless 3 "abc123" "/" None world0
           (dir_entry "/loop")).
  - reflexivity.
  - intros h url. reflexivity.
Defined.

(** ** The order of the manifest *)

Lemma ltb_leb (s t : string) : String.ltb s t = true -> String.leb s t = true.
Proof. unfold String.ltb, String.leb. now destruct (String.compare s t). Qed.

Lemma not_ltb_leb (s t : string) : String.ltb s t = false -> String.leb t s = true.
Proof.
  unfold String.ltb, String.leb. rewrite (String.compare_antisym s t).
  now destruct (String.compare t s).
Qed.

Lemma path_le_trans (x y z : dirent) : path_le x y -> path_le y z -> path_le x z.
Proof.
  unfold path_le. intros Hxy Hyz. apply Is_true_true.
  apply Is_true_true in Hxy, Hyz.
  exact (transitivity (R:=String.le) Hxy Hyz).
Qed.

Lemma path_le_antisym (x y : dirent) :
  path_le x y -> path_le y x -> file_path x = file_path y.
Proof. unfold path_le. intros Hxy Hyx. now apply String.leb_antisym. Qed.

Lemma insert_by_path_perm (x : dirent) (l : list dirent) :
  Permutation (insert_by_path x l) (x :: l).
Proof.
  induction l as [|y l IH]; [reflexivity|].
  cbn [insert_by_path]. destruct (String.ltb (file_path x) (file_path y)); [reflexivity|].
  rewrite IH. apply perm_swap.
Qed.

Lemma insert_by_path_hd (x y : dirent) (l : list dirent) :
  path_le y x -> HdRel path_le y l -> HdRel path_le y (insert_by_path x l).
Proof.
  intros Hyx Hhd. destruct l as [|z l]; [now constructor|].
  cbn [insert_by_path]. destruct (String.ltb (file_path x) (file_path z)).
  - now constructor.
  - constructor. now inversion Hhd.
Qed.

Lemma insert_by_path_sorted (x : dirent) (l : list dirent) :
  Sorted path_le l -> Sorted path_le (insert_by_path x l).
Proof.
  induction 1 as [|y l Hs IH Hhd]; [repeat constructor|].
  cbn [insert_by_path].
  destruct (String.ltb (file_path x) (file_path y)) eqn:Hlt.
  - constructor; [now constructor|]. constructor. now apply ltb_leb.
  - constructor; [exact IH|]. apply insert_by_path_hd; [|exact Hhd].
    now apply not_ltb_leb.
Qed.

Lemma sort_fold_invariant (l : list dirent) :
  forall acc, Sorted path_le acc ->
    Sorted path_le (foldl (fun acc x => insert_by_path x acc) acc l)
    /\ Permutation (foldl (fun acc x => insert_by_path x acc) acc l) (acc ++ l).
Proof.
  induction l as [|x l IH]; intros acc Hacc.
  - cbn [foldl]. now rewrite app_nil_r.
  - cbn [foldl]. destruct (IH (insert_by_path x acc)) as [Hs Hp].
    { now apply insert_by_path_sorted. }
    split; [exact Hs|]. rewrite Hp, insert_by_path_perm.
    apply Permutation_middle.
Qed.

(** X11. The manifest [main] prints and downloads is the walker's list
    sorted: it is in ascending order of [file_path] (compared character by
    character) and holds the same entries, each as often as the walker
    returned it. *)
Theorem manifest_is_sorted_by_path (filelist : list dirent) :
  Sorted path_le (sort_by_path filelist)
  /\ Permutation (sort_by_path filelist) filelist.
Proof. apply (sort_fold_invariant filelist []). constructor. Qed.

Lemma same_path_same_entry (l : list dirent) (x y : dirent) :
  NoDup (map file_path l) -> In x l -> In y l -> file_path x = file_path y -> x = y.
Proof.
  induction l as [|z l IH]; intros Hnd Hx Hy Heq; [destruct Hx|].
  cbn [map] in Hnd. apply NoDup_cons in Hnd as [Hz Hnd].
  destruct Hx as [->|Hx], Hy as [->|Hy]; [reflexivity | | | now apply IH].
  - exfalso. apply Hz. rewrite Heq. apply list_elem_of_In. now apply in_map.
  - exfalso. apply Hz. rewrite <- Heq. apply list_elem_of_In. now apply in_map.
Qed.

(** X12. When no two entries have the same path, the manifest does not
    depend on the order in which the walker found the entries: two lists
    with the same entries sort to the same manifest. *)
Theorem manifest_ignores_visit_order (l1 l2 : list dirent) :
  Permutation l1 l2 ->
  NoDup (map file_path l1) ->
  sort_by_path l1 = sort_by_path l2.
Proof.
  intros Hperm Hnd.
  destruct (sort_fold_invariant l1 [] (Sorted_nil _)) as [Hs1 Hp1].
  destruct (sort_fold_invariant l2 [] (Sorted_nil _)) as [Hs2 Hp2].
  change (foldl (fun acc x => insert_by_path x acc) [] l1) with (sort_by_path l1) in *.
  change (foldl (fun acc x => insert_by_path x acc) [] l2) with (sort_by_path l2) in *.
  cbn [app] in Hp1, Hp2.
  apply (Sorted_unique_strong path_le (Transitive0:=path_le_trans)); try assumption.
  - intros x1 x2 Hx1 Hx2 H12 H21.
    apply (same_path_same_entry l1); [exact Hnd | | |].
    + apply list_elem_of_In in Hx1. eapply Permutation_in; [exact Hp1 | exact Hx1].
    + apply list_elem_of_In in Hx2. eapply Permutation_in; [|exact Hx2].
      rewrite Hp2. now symmetry.
    + now apply path_le_antisym.
  - now rewrite Hp1, Hp2.
Qed.

Lemma manifest_ignores_visit_order_witness :
  sort_by_path [file_entry "/sub/b.txt" 20; file_entry "/a.txt" 10; file_entry "/Z" 1]
  = sort_by_path [file_entry "/a.txt" 10; file_entry "/Z" 1; file_entry "/sub/b.txt" 20].
Proof.
  apply manifest_ignores_visit_order.
  - apply Permutation_cons_append.
  - apply (bool_decide_unpack _). vm_compute. exact I.
Defined.

(** ** What a transfer leaves behind *)



Lemma download_single_file_written (env : remote) (url fname : string) (w : world)
  (resp : response) :
  http_stream env (trace w) url = inr resp ->
  (forall h, os_open_wb env h fname = None) ->
  (forall h data, os_write env h fname data = None) ->
  exists w',
    download_single_file env url fname w =
      (match broken resp with Some e => Raise e | None => Ok tt end, w')
    /\ files w' !! fname = Some (body resp)
    /\ consumed w' = consumed w + Z.of_nat (String.length (body resp)).
Proof.
  intros Hget Hopen Hwrite.
  unfold download_single_file.
  erewrite bind_ok by (rewrite sess_get_stream_run, Hget; reflexivity).
  erewrite bind_ok by (rewrite open_wb_run, Hopen; reflexivity).
  match goal with |- context [write_chunks env fname ?cs] =>
    edestruct (write_chunks_appends env fname Hwrite cs) as (w' & Hrun & Hfile & Hcons);
    [| erewrite bind_ok by exact Hrun ] end.
  { cbn [files]. apply lookup_insert_eq. }
  rewrite iter_content_concat in Hfile, Hcons by lia.
  exists w'. split; [|split; [exact Hfile | exact Hcons]].
  destruct (broken resp); reflexivity.
Qed.

(** X14. A stream that is cut leaves its bytes behind: when the response
    arrives and the stream raises after the bytes of [body],
    [download_single_file] ends in that error, and the local file holds
    exactly the bytes received (whatever it held before) and the progress
    counter has advanced by their number; nothing is removed. *)
Theorem cut_stream_leaves_partial_file (env : remote) (url fname : string)
  (w : world) (resp : response) (e : exn) :
  http_stream env (trace w) url = inr resp ->
  broken resp = Some e ->
  (forall h, os_open_wb env h fname = None) ->
  (forall h data, os_write env h fname data = None) ->
  exists w',
    download_single_file env url fname w = (Raise e, w')
    /\ files w' !! fname = Some (body resp)
    /\ consumed w' = consumed w + Z.of_nat (String.length (body resp)).
Proof.
  intros Hget Hcut Hopen Hwrite.
  destruct (download_single_file_written env url fname w resp Hget Hopen Hwrite)
    as (w' & Hrun & Hfile & Hcons).
  rewrite Hcut in Hrun. now exists w'.
Qed.

Lemma cut_stream_leaves_partial_file_witness :
  exists w',
    download_single_file scenario_cut (file_url "abc123" "/a.txt") "/tmp/a.txt"
                         (World [] {["/tmp/a.txt" := "a much longer old content"]} 0)
      = (Raise (RequestException "connection broken"), w')
    /\ files w' !! "/tmp/a.txt" = Some "hello"
    /\ consumed w' = 0 + Z.of_nat (String.length "hello").
Proof.
  apply (cut_stream_leaves_partial_file scenario_cut (file_url "abc123" "/a.txt")
           "/tmp/a.txt" (World [] {["/tmp/a.txt" := "a much longer old content"]} 0)
           (Response 200 "hello" (Some (RequestException "connection broken")))
           (RequestException "connection broken")).
  - reflexivity.
  - reflexivity.
  - intros h. reflexivity.
  - intros h data. reflexivity.
Defined.

(** ** What leaves the download loop *)

Lemma download_loop_raises (env : remote) (share_key save_dir : string) (n : nat)
  (filelist : list dirent) :
  forall i w e w',
    download_loop env share_key save_dir n i filelist w = (Raise e, w') ->
    exists h path, os_makedirs env h path = Some e /\ trace w' = h ++ [EvMakedirs path].
Proof.
  induction filelist as [|file rest IH]; intros i w e w' Hrun; [discriminate|].
  cbn [download_loop] in Hrun. unfold bind at 1 in Hrun.
  rewrite makedirs_run in Hrun.
  destruct (os_makedirs env (trace w) (Py.path_dirname (save_path_of save_dir file)))
    as [e0|] eqn:Hmk.
  - injection Hrun as <- <-. eexists _, _. split; [exact Hmk | reflexivity].
  - unfold bind at 1 in Hrun.
    match type of Hrun with context [try_except ?m ?h ?w1] =>
      destruct (transfer_block_ends_normally env
                  (file_url share_key (file_path file)) (save_path_of save_dir file)
                  (i + 1) n w1) as (w2 & evs & Hblock & _) end.
    rewrite Hblock in Hrun. eapply IH. exact Hrun.
Qed.

(** X15. The only error that leaves [download] is an error of
    [os.makedirs]: when [download] raises, the error is the one the
    creation of a directory gave, and that [makedirs] call is the last
    thing the run did.  Errors of the transfers never leave it. *)
Theorem download_raises_only_makedirs_errors (env : remote)
  (share_key save_dir : string) (filelist : list dirent) (w w' : world) (e : exn) :
  download env share_key filelist save_dir w = (Raise e, w') ->
  exists h path, os_makedirs env h path = Some e /\ trace w' = h ++ [EvMakedirs path].
Proof.
  intros Hrun.
  destruct (download_prelude env share_key save_dir filelist w) as (evs0 & _ & Heq).
  rewrite Heq in Hrun. unfold bind at 1 in Hrun.
  match type of Hrun with context [download_loop _ _ _ ?n ?i _ ?w1] =>
    destruct (download_loop env share_key save_dir n i filelist w1)
      as [[[]|e1] w2] eqn:Hloop end.
  - discriminate.
  - injection Hrun as <- <-. eapply download_loop_raises. exact Hloop.
Qed.

Lemma download_raises_only_makedirs_errors_witness :
  exists h path,
    os_makedirs scenario_denied h path = Some (OSError "Permission denied")
    /\ [EvPbarOpen 25; EvMakedirs "/home/user/Downloads/course/sub"] = h ++ [EvMakedirs path].
Proof.
  apply (download_raises_only_makedirs_errors scenario_denied "abc123"
           "/home/user/Downloads/course"
           [file_entry "/sub/b.txt" 20; file_entry "/z.txt" 5] world0
           (World [EvPbarOpen 25; EvMakedirs "/home/user/Downloads/course/sub"] ∅ 0)).
  reflexivity.
Defined.

(** ** The progress counter *)

Lemma download_loop_counts (env : remote) (share_key save_dir : string) (n : nat)
  (filelist : list dirent) :
  (forall h path, os_makedirs env h path = None) ->
  (forall h fname, os_open_wb env h fname = None) ->
  (forall h fname data, os_write env h fname data = None) ->
  (forall h f, In f filelist ->
     exists resp,
       http_stream env h (file_url share_key (file_path f)) = inr resp
       /\ broken resp = None
       /\ Z.of_nat (String.length (body resp)) = size f) ->
  forall i w, exists w',
    download_loop env share_key save_dir n i filelist w = (Ok tt, w')
    /\ consumed w' = consumed w + sum_sizes filelist.
Proof.
  intros Hmk Hopen Hwrite.
  induction filelist as [|file rest IH]; intros Hserve i w.
  - exists w. split; [reflexivity | simpl; lia].
  - cbn [download_loop].
    erewrite bind_ok by (rewrite makedirs_run, Hmk; reflexivity).
    unfold bind at 1, try_except, bind at 1, emit at 1.
    match goal with |- context [download_single_file env ?url ?fname ?w1] =>
      destruct (Hserve (trace w1) file (or_introl eq_refl)) as (resp & Hget & Hwhole & Hlen);
      destruct (download_single_file_written env url fname w1 resp Hget
                  (fun h => Hopen h fname) (fun h data => Hwrite h fname data))
        as (w2 & Hrun & _ & Hcons) end.
    rewrite Hrun, Hwhole.
    destruct (IH (fun h f Hf => Hserve h f (or_intror Hf)) (S i) w2) as (w3 & Hloop & Hcons3).
    exists w3. split; [exact Hloop|].
    rewrite Hcons3, Hcons, Hlen.
    change (sum_sizes (file :: rest)) with (size file + sum_sizes rest).
    cbn [consumed]. lia.
Qed.

Lemma download_opens_bar (env : remote) (share_key save_dir : string)
  (filelist : list dirent) (w : world) :
  exists evs,
    In (EvPbarOpen (sum_sizes filelist)) evs
    /\ download env share_key filelist save_dir w =
       bind (download_loop env share_key save_dir (length filelist) 0 filelist)
            (fun _ => emit EvPbarClose ;; logging INFO "Download finished.")
            (World (trace w ++ evs) (files w) (consumed w)).
Proof.
  unfold download. unfold bind at 1, ask at 1.
  destruct (os_exists env (trace w) save_dir).
  - exists [EvLog WARNING "Save directory already exists. Files will be overwritten.";
            EvPbarOpen (sum_sizes filelist)].
    split; [right; now left|].
    unfold bind at 1, logging at 1, emit at 1. unfold bind at 1, emit at 1.
    cbn [trace files consumed]. now rewrite <- app_assoc.
  - exists [EvPbarOpen (sum_sizes filelist)].
    split; [now left|].
    unfold bind at 1, ret at 1. unfold bind at 1, emit at 1. reflexivity.
Qed.

(** X16. When every directory can be created, every local file can be
    opened and written, and every file of the manifest is served whole
    with as many bytes as its listed [size], [download] ends normally and
    the progress counter has advanced by exactly the total the progress
    bar was opened with, the sum of the listed sizes. *)
Theorem progress_ends_at_total (env : remote) (share_key save_dir : string)
  (filelist : list dirent) (w : world) :
  (forall h path, os_makedirs env h path = None) ->
  (forall h fname, os_open_wb env h fname = None) ->
  (forall h fname data, os_write env h fname data = None) ->
  (forall h f, In f filelist ->
     exists resp,
       http_stream env h (file_url share_key (file_path f)) = inr resp
       /\ broken resp = None
       /\ Z.of_nat (String.length (body resp)) = size f) ->
  exists w',
    download env share_key filelist save_dir w = (Ok tt, w')
    /\ consumed w' = consumed w + sum_sizes filelist
    /\ In (EvPbarOpen (sum_sizes filelist)) (trace w').
Proof.
  intros Hmk Hopen Hwrite Hserve.
  destruct (download_opens_bar env share_key save_dir filelist w) as (evs0 & Hin & ->).
  match goal with |- context [bind (download_loop _ _ _ ?n ?i _) _ ?w1] =>
    destruct (download_loop_counts env share_key save_dir n filelist
                Hmk Hopen Hwrite Hserve i w1) as (w2 & Hloop & Hcons);
    destruct (download_loop_completes env share_key save_dir n filelist
                (proj2 (Forall_forall _ _) (fun f _ h => Hmk h _)) i w1)
      as (w2' & evs' & Hloop' & Heq & _) end.
  rewrite Hloop in Hloop'. injection Hloop' as <-.
  erewrite bind_ok by exact Hloop.
  eexists. split; [reflexivity|]. split.
  - cbn [consumed]. exact Hcons.
  - cbn [trace]. rewrite Heq. cbn [trace]. rewrite !in_app_iff. tauto.
Qed.

Lemma progress_ends_at_total_witness :
  exists w',
    download scenario_d "abc123" [file_entry "/sub/b.txt" 20] "/data/course" world0
      = (Ok tt, w')
    /\ consumed w' = consumed world0 + sum_sizes [file_entry "/sub/b.txt" 20]
    /\ In (EvPbarOpen (sum_sizes [file_entry "/sub/b.txt" 20])) (trace w').
Proof.
  apply (progress_ends_at_total scenario_d "abc123" "/data/course"
           [file_entry "/sub/b.txt" 20] world0).
  - intros h path. reflexivity.
  - intros h fname. reflexivity.
  - intros h fname data. reflexivity.
  - intros h f [<-|[]].
    exists (Response 200 "twenty bytes of data" None). repeat split.
Defined.

(** ** Before the operator confirms *)

Lemma confined_run {A} (allowed : event -> Prop) (m : M A) (w : world)
  (r : outcome A) (evs : list event) :
  m w = (r, World (trace w ++ evs) (files w) (consumed w)) ->
  Forall allowed evs ->
  confined_at allowed m w.
Proof.
  intros Hrun Hall. unfold confined_at. rewrite Hrun. cbn [snd trace files consumed].
  repeat split. now exists evs.
Qed.

Lemma get_share_key_harmless (url : string) (w : world) :
  confined_at (fun e => harmless e = true) (get_share_key url) w.
Proof.
  unfold get_share_key. destruct (negb (Py.startswith url share_prefix)).
  - apply confined_raise.
  - apply confined_bind; [now apply confined_emit | intros; apply confined_ret].
Qed.

Lemma verify_password_harmless (env : remote) (share_key : string) (w : world) :
  confined_at (fun e => harmless e = true) (verify_password env share_key) w.
Proof.
  unfold verify_password. apply confined_bind.
  { eapply confined_run; [apply sess_get_text_run | repeat constructor]. }
  intros text w1 _. destruct (default [] (Re.findall csrf_pattern text)) as [|token more].
  { apply confined_ret. }
  apply confined_bind.
  { eapply confined_run; [apply input_run | repeat constructor]. }
  intros pwd w2 _. apply confined_bind.
  { eapply confined_run; [apply sess_post_text_run | repeat constructor]. }
  intros reply w3 _.
  destruct (Py.contains "Please enter a correct password" reply);
    [apply confined_raise | apply confined_ret].
Qed.

(** X17. Nothing is fetched or written before the operator confirms.
    Unless the answer to "Start downloading? [y/n]" is exactly [y], a run
    of [main], however it ends, sends no download request, creates no
    directory, opens and writes no file, and leaves the local files and
    the progress counter as they were. *)
Theorem nothing_is_written_without_yes (env : remote) (link : string)
  (output : option string) (match_pattern : string) (w : world) :
  (forall h, stdin_line env h "Start downloading? [y/n]" <> "y") ->
  let w' := snd (main env link output match_pattern w) in
  files w' = files w
  /\ consumed w' = consumed w
  /\ exists evs, trace w' = trace w ++ evs /\ Forall (fun e => harmless e = true) evs.
Proof.
  intros Hno. cbn zeta.
  change (confined_at (fun e => harmless e = true) (main env link output match_pattern) w).
  unfold main. apply confined_bind; [apply get_share_key_harmless|].
  intros share_key w1 _. apply confined_bind; [apply verify_password_harmless|].
  intros _ w2 _. apply confined_bind; [now apply confined_emit|].
  intros _ w3 _. apply confined_bind.
  { eapply confined_mono; [|apply dfs_search_files_confined].
    intros e [path ->]. reflexivity. }
  intros filelist w4 _. destruct (sort_by_path filelist) as [|file rest].
  { now apply confined_emit. }
  apply confined_bind; [now apply confined_emit|].
  intros _ w5 _. apply confined_bind; [now apply confined_emit|].
  intros _ w6 _. apply confined_bind.
  { eapply confined_run; [apply input_run | repeat constructor]. }
  intros key w7 Hkey. rewrite input_run in Hkey. injection Hkey as <- _.
  destruct (String.eqb_spec (stdin_line env (trace w6) "Start downloading? [y/n]") "y")
    as [Hy|_].
  - now destruct (Hno (trace w6)).
  - apply confined_ret.
Qed.

Lemma nothing_is_written_without_yes_witness :
  let w' := snd (main scenario_capital "https://cloud.tsinghua.edu.cn/d/abc123/"
                      (Some "/data") "*.txt" world0) in
  files w' = files world0
  /\ consumed w' = consumed world0
  /\ exists evs, trace w' = trace world0 ++ evs /\ Forall (fun e => harmless e = true) evs.
Proof.
  apply (nothing_is_written_without_yes scenario_capital
           "https://cloud.tsinghua.edu.cn/d/abc123/" (Some "/data") "*.txt" world0).
  intros h. discriminate.
Defined.

(** X18. An invalid link stops the run before anything happens: [main]
    (and the command line) ends in the invalid-link [ValueError] with no
    request sent, no prompt, no log line and the world as it was. *)
Theorem invalid_link_stops_before_any_request (env : remote) (link : string)
  (output pattern : option string) (w : world) :
  (forall suffix, link <> share_prefix +:+ suffix) ->
  app env link output pattern w =
    (Raise (ValueError ("Share link of Tsinghua Cloud should start with "
                        +:+ share_prefix)), w).
Proof.
  intros Hno. unfold app, main. apply bind_raise, get_share_key_other.
  destruct (String.prefix share_prefix link) eqn:Hp; [|reflexivity].
  destruct (prefix_split _ _ Hp) as [t ->]. now destruct (Hno t).
Qed.

Lemma invalid_link_stops_before_any_request_witness :
  app scenario_a "http://cloud.tsinghua.edu.cn/d/abc123/" None None world0 =
    (Raise (ValueError "Share link of Tsinghua Cloud should start with https://cloud.tsinghua.edu.cn/d/"),
     world0).
Proof.
  apply (invalid_link_stops_before_any_request scenario_a
           "http://cloud.tsinghua.edu.cn/d/abc123/" None None world0).
  intros suffix H. discriminate H.
Defined.

(** ** Where a file is saved *)

(** X19. The local path of a file.  When the remote path without its
    first character does not start with a slash, the file is saved under
    [save_dir]: its local path is [save_dir], a separator unless
    [save_dir] is empty or ends with one, and that relative path.  When it
    does start with a slash (a remote path that begins with two
    characters of which the second is a slash), [save_dir] is ignored and
    the file is saved at that absolute path. *)
Theorem local_path_of_a_file (save_dir : string) (file : dirent) :
  let rel := Py.drop_str 1 (file_path file) in
  (Py.startswith rel "/" = false ->
   Py.startswith (save_path_of save_dir file) save_dir = true
   /\ (save_path_of save_dir file = save_dir +:+ rel
       \/ save_path_of save_dir file = save_dir +:+ "/" +:+ rel))
  /\ (Py.startswith rel "/" = true -> save_path_of save_dir file = rel).
Proof.
  cbn zeta. unfold save_path_of, Py.path_join. split.
  - intros ->. destruct (String.eqb save_dir "" || Py.endswith_char "/" save_dir).
    + split; [apply prefix_app | now left].
    + split; [apply prefix_app | now right].
  - now intros ->.
Qed.

Lemma local_path_of_a_file_witness :
  save_path_of "/home/user/Downloads/course" (file_entry "/sub/b.txt" 20)
    = "/home/user/Downloads/course/sub/b.txt"
  /\ save_path_of "/home/user/Downloads/course" (file_entry "//etc/cron.d/job" 20)
    = "/etc/cron.d/job".
Proof.
  split.
  - destruct (proj1 (local_path_of_a_file "/home/user/Downloads/course"
                       (file_entry "/sub/b.txt" 20)) eq_refl) as [_ [H|H]].
    + vm_compute in H. discriminate H.
    + rewrite H. reflexivity.
  - rewrite (proj2 (local_path_of_a_file "/home/user/Downloads/course"
                      (file_entry "//etc/cron.d/job" 20)) eq_refl).
    reflexivity.
Defined.
